(** * The logging core of forked-daapd ([src/err.c])

    A shallow embedding of [err.c].  The file-scope variables of [err.c]
    and the part of the outside world it talks to (standard error, syslog,
    the file system, the allocator, the clock) form one [state]; every C
    function becomes a computation over that state which returns a value,
    ends the process through [exit], or leaves the behaviour that C
    defines (a read outside [lvl2syslog], [fclose] or [fprintf] on a stream
    that is not open).

    - [int] and [unsigned int] values are integers of [Z]; the bitwise
      operators are [Z.land], [Z.lor] and [Z.lnot], the one shift that could
      leave 32 bits is reduced modulo [2 ^ 32].
    - A [string] stands for the characters of a C string before its NUL.
    - What the environment decides is read from the state: on which paths
      [fopen] fails, whether the next allocation is served, the text of the
      time stamp and of [strerror(errno)].
    - [pthread_mutex_lock] and [pthread_mutex_unlock] leave no trace in a
      call that runs alone; the locked regions reappear as the stretches a
      call takes in the interleaving of calls further down.
    - The id of the calling thread, which the C code gets from
      [__err_get_threadid()], is the argument [tid]. *)

From Stdlib Require Import ZArith String Ascii List Bool Lia.
From stdpp Require Import base gmap strings list.

Local Open Scope Z_scope.

(** ** Constants that [err.c] takes from headers *)

(** The macros [err.c] uses from [err.h].  The header is not part of the
    sources at hand, so the development is parametric in their values. *)
Class err_h := {
  LOGDEST_STDERR : Z;
  LOGDEST_SYSLOG : Z;
  LOGDEST_LOGFILE : Z;
  E_LOG : Z;
  E_INF : Z;
  E_DBG : Z;
  L_MISC : Z;
  TRUE : Z;
  FALSE : Z
}.

(** The four priorities of [<syslog.h>] that [lvl2syslog] mentions. *)
Inductive syslog_priority := LOG_ALERT | LOG_NOTICE | LOG_INFO | LOG_DEBUG.

(** [<stdlib.h>] and [<limits.h>] on the platforms the daemon builds for. *)
Definition EXIT_FAILURE : Z := 1.
Definition PATH_MAX : nat := 4096.

(** [static int lvl2syslog[10]] *)
Definition lvl2syslog : list syslog_priority :=
  [ LOG_ALERT; LOG_ALERT;
    LOG_NOTICE; LOG_NOTICE; LOG_NOTICE;
    LOG_INFO; LOG_INFO; LOG_INFO; LOG_INFO;
    LOG_DEBUG ].

(** [static char *err_categorylist[]], without its [NULL] terminator. *)
Definition err_categorylist : list string :=
  [ "config"; "webserver"; "database"; "scan"; "query"; "index"; "browse";
    "playlist"; "art"; "daap"; "main"; "rend"; "xml"; "parse"; "plugin";
    "lock"; "httpd"; "rsp"; "xcode" ]%string.

(** ** Text *)

Definition LF : string := String "010" EmptyString.

(** The [x] conversion of one nibble. *)
Definition hex_digit (d : Z) : ascii :=
  nth (Z.to_nat d)
      [ "0"; "1"; "2"; "3"; "4"; "5"; "6"; "7";
        "8"; "9"; "a"; "b"; "c"; "d"; "e"; "f" ]%char "0"%char.

(** [%08x] applied to a [uint32_t]. *)
Definition hex8 (x : Z) : string :=
  string_of_list_ascii
    (map (fun k => hex_digit (Z.land (Z.shiftr x k) 15))
         [28; 24; 20; 16; 12; 8; 4; 0]).

(** What [snprintf]/[strncpy] leave of a text in a buffer with room for
    [n] characters before the terminating NUL. *)
Definition truncate_to (n : nat) (s : string) : string := substring 0 n s.

(** [vsnprintf(errbuf, sizeof(errbuf), fmt, ap)] with [char errbuf[4096]];
    the argument is the fully expanded text of the format. *)
Definition vsnprintf_errbuf (expanded : string) : string :=
  truncate_to 4095 expanded.

(** ** State *)

(** A [FILE *] that is not [NULL]: the identity of a stream. *)
Definition FILE := nat.

Inductive fopen_mode := mode_a | mode_w.

Inductive syslog_event :=
| Openlog
| Syslog (prio : syslog_priority) (text : string).

Record state := mkState {
  (* the file-scope variables of err.c *)
  err_debuglevel : Z;
  err_logdest : Z;
  err_filename : string;
  err_file : option FILE;
  err_debugmask : Z;
  err_truncate : Z;
  err_syslog_open : Z;
  (* the nodes reachable from [err_threadlist.next], head first *)
  err_threadlist : list Z;
  (* what the process has sent to syslog and written to stderr *)
  sys_log : list syslog_event;
  std_err : list string;
  (* file system: contents by path, as the sequence of chunks written *)
  fs_files : gmap string (list string);
  (* streams that are open, with the path each was opened on *)
  fs_streams : gmap FILE string;
  (* streams handed out so far; a closed stream is never handed out again *)
  fs_next : FILE;
  (* paths on which [fopen] fails *)
  fs_denied : gset string;
  (* results of the coming allocation requests, first request first;
     requests beyond the list succeed *)
  heap : list bool;
  (* the text [snprintf] produces from [localtime_r(time(NULL))] *)
  clock : string;
  (* [strerror(errno)] *)
  errno_text : string
}.

Definition set_err_debuglevel (v : Z) (s : state) : state :=
  mkState v (err_logdest s) (err_filename s) (err_file s) (err_debugmask s)
    (err_truncate s) (err_syslog_open s) (err_threadlist s) (sys_log s)
    (std_err s) (fs_files s) (fs_streams s) (fs_next s) (fs_denied s)
    (heap s) (clock s) (errno_text s).

Definition set_err_logdest (v : Z) (s : state) : state :=
  mkState (err_debuglevel s) v (err_filename s) (err_file s) (err_debugmask s)
    (err_truncate s) (err_syslog_open s) (err_threadlist s) (sys_log s)
    (std_err s) (fs_files s) (fs_streams s) (fs_next s) (fs_denied s)
    (heap s) (clock s) (errno_text s).

Definition set_err_filename (v : string) (s : state) : state :=
  mkState (err_debuglevel s) (err_logdest s) v (err_file s) (err_debugmask s)
    (err_truncate s) (err_syslog_open s) (err_threadlist s) (sys_log s)
    (std_err s) (fs_files s) (fs_streams s) (fs_next s) (fs_denied s)
    (heap s) (clock s) (errno_text s).

Definition set_err_file (v : option FILE) (s : state) : state :=
  mkState (err_debuglevel s) (err_logdest s) (err_filename s) v
    (err_debugmask s) (err_truncate s) (err_syslog_open s) (err_threadlist s)
    (sys_log s) (std_err s) (fs_files s) (fs_streams s) (fs_next s)
    (fs_denied s) (heap s) (clock s) (errno_text s).

Definition set_err_debugmask (v : Z) (s : state) : state :=
  mkState (err_debuglevel s) (err_logdest s) (err_filename s) (err_file s) v
    (err_truncate s) (err_syslog_open s) (err_threadlist s) (sys_log s)
    (std_err s) (fs_files s) (fs_streams s) (fs_next s) (fs_denied s)
    (heap s) (clock s) (errno_text s).

Definition set_err_truncate (v : Z) (s : state) : state :=
  mkState (err_debuglevel s) (err_logdest s) (err_filename s) (err_file s)
    (err_debugmask s) v (err_syslog_open s) (err_threadlist s) (sys_log s)
    (std_err s) (fs_files s) (fs_streams s) (fs_next s) (fs_denied s)
    (heap s) (clock s) (errno_text s).

Definition set_err_syslog_open (v : Z) (s : state) : state :=
  mkState (err_debuglevel s) (err_logdest s) (err_filename s) (err_file s)
    (err_debugmask s) (err_truncate s) v (err_threadlist s) (sys_log s)
    (std_err s) (fs_files s) (fs_streams s) (fs_next s) (fs_denied s)
    (heap s) (clock s) (errno_text s).

Definition set_err_threadlist (v : list Z) (s : state) : state :=
  mkState (err_debuglevel s) (err_logdest s) (err_filename s) (err_file s)
    (err_debugmask s) (err_truncate s) (err_syslog_open s) v (sys_log s)
    (std_err s) (fs_files s) (fs_streams s) (fs_next s) (fs_denied s)
    (heap s) (clock s) (errno_text s).

Definition set_sys_log (v : list syslog_event) (s : state) : state :=
  mkState (err_debuglevel s) (err_logdest s) (err_filename s) (err_file s)
    (err_debugmask s) (err_truncate s) (err_syslog_open s) (err_threadlist s)
    v (std_err s) (fs_files s) (fs_streams s) (fs_next s) (fs_denied s)
    (heap s) (clock s) (errno_text s).

Definition set_std_err (v : list string) (s : state) : state :=
  mkState (err_debuglevel s) (err_logdest s) (err_filename s) (err_file s)
    (err_debugmask s) (err_truncate s) (err_syslog_open s) (err_threadlist s)
    (sys_log s) v (fs_files s) (fs_streams s) (fs_next s) (fs_denied s)
    (heap s) (clock s) (errno_text s).

Definition set_fs (files : gmap string (list string))
    (streams : gmap FILE string) (next : FILE) (s : state) : state :=
  mkState (err_debuglevel s) (err_logdest s) (err_filename s) (err_file s)
    (err_debugmask s) (err_truncate s) (err_syslog_open s) (err_threadlist s)
    (sys_log s) (std_err s) files streams next (fs_denied s)
    (heap s) (clock s) (errno_text s).

Definition set_heap (v : list bool) (s : state) : state :=
  mkState (err_debuglevel s) (err_logdest s) (err_filename s) (err_file s)
    (err_debugmask s) (err_truncate s) (err_syslog_open s) (err_threadlist s)
    (sys_log s) (std_err s) (fs_files s) (fs_streams s) (fs_next s)
    (fs_denied s) v (clock s) (errno_text s).

(** ** Computations *)

(** How a call ends: it returns a value, the process exits with a status,
    or the call runs into behaviour that C leaves undefined. *)
Inductive outcome (A : Type) :=
| Returned (a : A) (s : state)
| Exited (status : Z) (s : state)
| Undefined.
Arguments Returned {A} a s.
Arguments Exited {A} status s.
Arguments Undefined {A}.

Definition M (A : Type) : Type := state -> outcome A.

Definition ret {A} (a : A) : M A := fun s => Returned a s.

Definition bind {A B} (m : M A) (k : A -> M B) : M B :=
  fun s =>
    match m s with
    | Returned a s' => k a s'
    | Exited c s' => Exited c s'
    | Undefined => Undefined
    end.

Declare Scope err_scope.
Delimit Scope err_scope with err.
Notation "'let*' x ':=' m 'in' k" := (bind m (fun x => k))
  (at level 10, x name, m at level 100, k at level 200) : err_scope.
Notation "m '>>' k" := (bind m (fun _ => k))
  (at level 65, right associativity) : err_scope.
Local Open Scope err_scope.

Definition gets {A} (f : state -> A) : M A := fun s => Returned (f s) s.
Definition modify (f : state -> state) : M unit := fun s => Returned tt (f s).
Definition undefined {A} : M A := fun _ => Undefined.
Definition when (b : bool) (m : M unit) : M unit := if b then m else ret tt.

(** [exit(status)]: the parent sees [status & 0377]. *)
Definition exit {A} (status : Z) : M A :=
  fun s => Exited (Z.land status 255) s.

(** ** The C library, as far as [err.c] uses it *)

(** [malloc], [strdup]: whether the request is served. *)
Definition malloc : M bool :=
  fun s => Returned (hd true (heap s)) (set_heap (tl (heap s)) s).

Definition fprintf_stderr (text : string) : M unit :=
  modify (fun s => set_std_err (std_err s ++ [text]) s).

Definition openlog : M unit :=
  modify (fun s => set_sys_log (sys_log s ++ [Openlog]) s).

Definition syslog (prio : syslog_priority) (text : string) : M unit :=
  modify (fun s => set_sys_log (sys_log s ++ [Syslog prio text]) s).

(** [fopen(path, "a")] and [fopen(path, "w")]: both create a missing file,
    ["w"] empties an existing one. *)
Definition fopen (path : string) (mode : fopen_mode) : M (option FILE) :=
  fun s =>
    if decide (path ∈ fs_denied s) then Returned None s
    else
      let old := default [] (fs_files s !! path) in
      let contents := match mode with mode_a => old | mode_w => [] end in
      Returned (Some (fs_next s))
        (set_fs (<[path := contents]> (fs_files s))
                (<[fs_next s := path]> (fs_streams s))
                (S (fs_next s)) s).

(** [fclose(fp)]: defined only on a stream that is open. *)
Definition fclose (fp : option FILE) : M unit :=
  fun s =>
    match fp with
    | None => Undefined
    | Some f =>
        match fs_streams s !! f with
        | None => Undefined
        | Some _ =>
            Returned tt (set_fs (fs_files s) (delete f (fs_streams s))
                                (fs_next s) s)
        end
    end.

(** [fprintf(fp, ...)] producing [text]: defined only on an open stream. *)
Definition fprintf (fp : option FILE) (text : string) : M unit :=
  fun s =>
    match fp with
    | None => Undefined
    | Some f =>
        match fs_streams s !! f with
        | None => Undefined
        | Some path =>
            let old := default [] (fs_files s !! path) in
            Returned tt (set_fs (<[path := old ++ [text]]> (fs_files s))
                                (fs_streams s) (fs_next s) s)
        end
    end.

(** ** The thread list *)

(** The walk of [__err_thread_check] over the list. *)
Fixpoint thread_check (thread_id : Z) (current : list Z) : bool :=
  match current with
  | [] => false
  | id :: next => if id =? thread_id then true else thread_check thread_id next
  end.

(** The walk of [__err_thread_del]: the first node carrying the id is
    unlinked. *)
Fixpoint thread_del (thread_id : Z) (current : list Z) : list Z :=
  match current with
  | [] => []
  | id :: next =>
      if id =? thread_id then next else id :: thread_del thread_id next
  end.

Section Err.

Context `{err_h}.

(** In every function below [tid] is what [__err_get_threadid()] yields in
    the calling thread. *)

Definition __err_thread_add (tid : Z) : M unit :=
  let* pnew := malloc in
  if negb pnew then
    fprintf_stderr ("malloc error in __err_thread_add" +:+ LF) >> exit (-1)
  else
    modify (fun s => set_err_threadlist (tid :: err_threadlist s) s).

Definition __err_thread_del (tid : Z) : M unit :=
  modify (fun s => set_err_threadlist (thread_del tid (err_threadlist s)) s).

Definition __err_thread_check (tid : Z) : M bool :=
  gets (fun s => thread_check tid (err_threadlist s)).

(** ** [err_log] *)

(** Lines 216-222: the level and category test.  [true] when the message
    goes on, [false] when [err_log] returns at once. *)
Definition err_log_filter (level cat : Z) (s : state) : bool :=
  if 1 <? level then
    if err_debuglevel s <? level then false
    else if Z.land cat (err_debugmask s) =? 0 then false
    else true
  else true.

(** Lines 225-235, under [m_errlist].  [None] when the call returns from
    inside the section, otherwise the value of [syslog_only]. *)
Definition err_log_guard (tid level : Z) : M (option bool) :=
  let* nonempty := gets (fun s => negb (bool_decide (err_threadlist s = []))) in
  let* listed := __err_thread_check tid in
  if nonempty && listed then
    if level =? 0 then
      __err_thread_add tid >> ret (Some true)
    else
      ret None
  else
    __err_thread_add tid >> ret (Some false).

(** [lvl2syslog[level]]; reading outside the array is undefined. *)
Definition lvl2syslog_at (level : Z) : M syslog_priority :=
  if level <? 0 then undefined
  else match lvl2syslog !! Z.to_nat level with
       | Some p => ret p
       | None => undefined
       end.

(** Lines 241-253. *)
Definition err_log_syslog (level : Z) (syslog_only : bool) (errbuf : string)
  : M unit :=
  if level <=? 1 then
    let* opened := gets err_syslog_open in
    when (opened =? 0) openlog >>
    modify (set_err_syslog_open 1) >>
    let* prio := (if E_DBG <? level then ret LOG_DEBUG
                  else lvl2syslog_at level) in
    syslog prio errbuf >>
    if syslog_only && (level =? 0) then
      fprintf_stderr ("Aborting" +:+ LF) >> exit (-1)
    else ret tt
  else ret tt.

(** Lines 255-273, under [m_err]. *)
Definition err_log_sinks (tid level : Z) (syslog_only : bool)
    (errbuf : string) : M unit :=
  let* dest := gets err_logdest in
  let* fp := gets err_file in
  when (negb (Z.land dest LOGDEST_LOGFILE =? 0)
        && bool_decide (fp <> None) && negb syslog_only)
    (let* timebuf := gets clock in
     fprintf fp (timebuf +:+ " (" +:+ hex8 tid +:+ "): " +:+ errbuf) >>
     when (level =? 0) (fprintf fp (timebuf +:+ ": Aborting" +:+ LF))) >>
  when (negb (Z.land dest LOGDEST_STDERR =? 0) || (level =? 0))
    (fprintf_stderr errbuf >>
     when (level =? 0) (fprintf_stderr ("Aborting" +:+ LF))).

(** Lines 275-277, under [m_errlist]. *)
Definition err_log_leave (tid : Z) : M unit := __err_thread_del tid.

(** Lines 279-281. *)
Definition err_log_exit (level : Z) : M unit :=
  when (level =? 0) (exit EXIT_FAILURE).

(** [err_log(level, cat, fmt, ...)]; [expanded] is the text the format and
    its arguments expand to. *)
Definition err_log (tid level cat : Z) (expanded : string) : M unit :=
  let* pass := gets (err_log_filter level cat) in
  if negb pass then ret tt
  else
    let* guard := err_log_guard tid level in
    match guard with
    | None => ret tt
    | Some syslog_only =>
        let errbuf := vsnprintf_errbuf expanded in
        err_log_syslog level syslog_only errbuf >>
        err_log_sinks tid level syslog_only errbuf >>
        err_log_leave tid >>
        err_log_exit level
    end.

(** Lines 224-282: what [err_log] does with a message that has passed the
    test of lines 216-222. *)
Definition err_log_accepted (tid level : Z) (expanded : string) : M unit :=
  let* guard := err_log_guard tid level in
  match guard with
  | None => ret tt
  | Some syslog_only =>
      let errbuf := vsnprintf_errbuf expanded in
      err_log_syslog level syslog_only errbuf >>
      err_log_sinks tid level syslog_only errbuf >>
      err_log_leave tid >>
      err_log_exit level
  end.

(** Modelled from the spec: the macro [DPRINTF] of [err.h], which is not
    among the sources.  The spec has the failures of rotation and of the
    mask parser "reported through the normal dispatch path", that is, by a
    call of [err_log] with the macro's arguments. *)
Definition DPRINTF (tid level cat : Z) (expanded : string) : M unit :=
  err_log tid level cat expanded.

(** ** Configuration *)

Definition err_setlevel (level : Z) : M unit :=
  modify (set_err_debuglevel level).

Definition err_getlevel : M Z := gets err_debuglevel.

Definition err_getdest : M Z := gets err_logdest.

Definition err_setdest (destination : Z) : M unit :=
  let* current := gets err_logdest in
  if current =? destination then ret tt
  else
    let* fp := gets err_file in
    when (negb (Z.land current LOGDEST_LOGFILE =? 0)
          && (Z.land destination LOGDEST_LOGFILE =? 0))
      (fclose fp) >>
    modify (set_err_logdest destination).

Definition err_setlogfile (file : string) : M Z :=
  let* fp := gets err_file in
  when (bool_decide (fp <> None)) (fclose fp) >>
  let* truncate := gets err_truncate in
  let mode := if negb (truncate =? 0) then mode_w else mode_a in
  modify (set_err_filename (truncate_to PATH_MAX file)) >>
  let* name := gets err_filename in
  let* opened := fopen name mode in
  modify (set_err_file opened) >>
  match opened with
  | None =>
      let* reason := gets errno_text in
      fprintf_stderr ("Error opening logfile: " +:+ reason) >>
      modify (fun s =>
        set_err_logdest (Z.land (err_logdest s) (Z.lnot LOGDEST_LOGFILE)) s) >>
      let* syslog_open := gets err_syslog_open in
      when (syslog_open =? 0) openlog >>
      let* prio := lvl2syslog_at 1 in
      syslog prio "Error opening logfile" >>
      ret FALSE
  | Some _ => ret TRUE
  end.

Definition err_settruncate (truncate : Z) : M Z :=
  let* current := gets err_truncate in
  if current =? truncate then ret TRUE
  else
    modify (set_err_truncate truncate) >>
    let* fp := gets err_file in
    when (negb (truncate =? 0) && bool_decide (fp <> None))
      (let* file := malloc in           (* strdup, released unused *)
       let* name := gets err_filename in
       let* result := err_setlogfile name in
       ret tt) >>
    ret TRUE.

Definition err_reopen (tid : Z) : M unit :=
  let* dest := gets err_logdest in
  if Z.land dest LOGDEST_LOGFILE =? 0 then ret tt
  else
    let* fp := gets err_file in
    fclose fp >>
    let* name := gets err_filename in
    let* opened := fopen name mode_w in
    modify (set_err_file opened) >>
    match opened with
    | None =>
        let* dest := gets err_logdest in
        err_setdest (Z.land dest (Z.lnot LOGDEST_LOGFILE)) >>
        let* dest := gets err_logdest in
        err_setdest (Z.lor dest LOGDEST_SYSLOG) >>
        let* reason := gets errno_text in
        DPRINTF tid E_LOG L_MISC
          ("Could not rotate log file: " +:+ reason +:+ LF)
    | Some _ =>
        DPRINTF tid E_LOG L_MISC ("Rotated logs" +:+ LF)
    end.

(** ** The category mask *)

(** [tolower] on an [unsigned char], C locale. *)
Definition tolower (c : Z) : Z :=
  if (65 <=? c) && (c <=? 90) then c + 32 else c.

Definition char_code (c : ascii) : Z := Z.of_nat (nat_of_ascii c).

Fixpoint strcasecmp (a b : string) : Z :=
  match a, b with
  | EmptyString, EmptyString => 0
  | EmptyString, String d _ => 0 - tolower (char_code d)
  | String c _, EmptyString => tolower (char_code c)
  | String c a', String d b' =>
      let x := tolower (char_code c) in
      let y := tolower (char_code d) in
      if x =? y then strcasecmp a' b' else x - y
  end.

(** The tokens successive [strtok_r(str, ",", &last)] calls return: the
    maximal non-empty runs without the delimiter, left to right.  [token]
    is the run under construction. *)
Fixpoint strtok_all (delim : ascii) (token : string) (str : string)
  : list string :=
  match str with
  | EmptyString =>
      match token with EmptyString => [] | _ => [token] end
  | String c rest =>
      if Ascii.eqb c delim then
        match token with
        | EmptyString => strtok_all delim EmptyString rest
        | _ => token :: strtok_all delim EmptyString rest
        end
      else strtok_all delim (token +:+ String c EmptyString) rest
  end.

(** The inner [while] of [err_setdebugmask]: [rack] is shifted once for
    every name passed over; [None] when the walk reaches the [NULL]. *)
Fixpoint category_rack (categories : list string) (token : string)
    (rack : Z) : option Z :=
  match categories with
  | [] => None
  | name :: rest =>
      if strcasecmp name token =? 0 then Some rack
      else category_rack rest token (Z.shiftl rack 1 mod 2 ^ 32)
  end.

(** The outer [while(1)], one round per token. *)
Fixpoint err_setdebugmask_loop (tid : Z) (tokens : list string) : M Z :=
  match tokens with
  | [] =>
      let* mask := gets err_debugmask in
      DPRINTF tid E_INF L_MISC ("Debug mask is 0x" +:+ hex8 mask +:+ LF) >>
      ret 0
  | token :: rest =>
      match category_rack err_categorylist token 1 with
      | None =>
          DPRINTF tid E_LOG L_MISC ("Unknown module: " +:+ token +:+ LF) >>
          ret 1
      | Some rack =>
          modify (fun s => set_err_debugmask (Z.lor (err_debugmask s) rack) s) >>
          err_setdebugmask_loop tid rest
      end
  end.

Definition err_setdebugmask (tid : Z) (list : string) : M Z :=
  modify (set_err_debugmask 0x80000000) >>
  let* str := malloc in               (* strdup *)
  if negb str then ret 0
  else err_setdebugmask_loop tid (strtok_all "," EmptyString list).

(** ** Calls of [err_log] in progress

    [err_log] works in stretches: the unlocked filter, the section under
    [m_errlist] that consults and extends the thread list, the unlocked
    syslog part, the section under [m_err] that writes file and console,
    the section under [m_errlist] that unlinks the thread, and the final
    [exit].  Between two stretches another thread, or a signal handler on
    the same thread, may run its own call.  The process below lets any
    call in progress take its next stretch, and any thread enter a new call
    at any time; this includes every schedule the threads and handlers of
    the daemon can produce. *)

Inductive stretch := AtFilter | AtGuard | AtSyslog | AtSinks | AtLeave | AtExit.

Record call := mkCall {
  c_tid : Z;
  c_level : Z;
  c_cat : Z;
  c_text : string;
  c_at : stretch;
  c_syslog_only : bool
}.

Definition enter_call (tid level cat : Z) (expanded : string) : call :=
  mkCall tid level cat expanded AtFilter false.

Definition move (c : call) (next : stretch) : call :=
  mkCall (c_tid c) (c_level c) (c_cat c) (c_text c) next (c_syslog_only c).

(** One stretch of a call; [None] when the call has returned. *)
Definition call_step (c : call) : M (option call) :=
  let errbuf := vsnprintf_errbuf (c_text c) in
  match c_at c with
  | AtFilter =>
      let* pass := gets (err_log_filter (c_level c) (c_cat c)) in
      if negb pass then ret None else ret (Some (move c AtGuard))
  | AtGuard =>
      let* guard := err_log_guard (c_tid c) (c_level c) in
      match guard with
      | None => ret None
      | Some syslog_only =>
          ret (Some (mkCall (c_tid c) (c_level c) (c_cat c) (c_text c)
                            AtSyslog syslog_only))
      end
  | AtSyslog =>
      err_log_syslog (c_level c) (c_syslog_only c) errbuf >>
      ret (Some (move c AtSinks))
  | AtSinks =>
      err_log_sinks (c_tid c) (c_level c) (c_syslog_only c) errbuf >>
      ret (Some (move c AtLeave))
  | AtLeave =>
      err_log_leave (c_tid c) >> ret (Some (move c AtExit))
  | AtExit =>
      err_log_exit (c_level c) >> ret None
  end.

(** A call run from its current stretch to its end without interruption. *)
Fixpoint call_run (stretches : nat) (c : call) : M unit :=
  match stretches with
  | O => ret tt
  | S n =>
      let* next := call_step c in
      match next with
      | None => ret tt
      | Some c' => call_run n c'
      end
  end.

(** The process: alive with some calls of [err_log] in progress, gone
    through [exit], or out of the defined behaviour of C. *)
Inductive process :=
| Running (s : state) (calls : list call)
| Terminated (status : Z) (s : state)
| Crashed.

Definition resume (before after : list call) (r : outcome (option call))
  : process :=
  match r with
  | Returned (Some c') s' => Running s' (before ++ c' :: after)
  | Returned None s' => Running s' (before ++ after)
  | Exited status s' => Terminated status s'
  | Undefined => Crashed
  end.

Inductive step : process -> process -> Prop :=
| step_enter s calls tid level cat expanded :
    step (Running s calls)
         (Running s (enter_call tid level cat expanded :: calls))
| step_stretch s before c after :
    step (Running s (before ++ c :: after))
         (resume before after (call_step c s)).

End Err.

(** ** What the properties speak about *)

(** The call holds a node of the thread list. *)
Definition registered (c : call) : bool :=
  match c_at c with
  | AtSyslog | AtSinks | AtLeave => true
  | _ => false
  end.

Fixpoint count_calls (P : call -> bool) (calls : list call) : nat :=
  match calls with
  | [] => O
  | c :: rest => ((if P c then 1 else 0) + count_calls P rest)%nat
  end.

Definition weight (P : call -> bool) (c : call) : nat :=
  if P c then 1%nat else 0%nat.

(** The call holds a node carrying [id]. *)
Definition holds (id : Z) (c : call) : bool :=
  registered c && (c_tid c =? id).

(** ... and got it as a first registration, not as a fatal recursive one. *)
Definition first_holds (id : Z) (c : call) : bool :=
  holds id c && negb (c_syslog_only c).

Definition fatal_recursive (c : call) : bool :=
  registered c && c_syslog_only c.

Fixpoint occurrences (id : Z) (l : list Z) : nat :=
  match l with
  | [] => O
  | x :: rest => if x =? id then S (occurrences id rest) else occurrences id rest
  end.

(** [err_file] is [NULL] or a stream that is open. *)
Definition handle_valid (s : state) : bool :=
  match err_file s with
  | None => true
  | Some f => bool_decide (is_Some (fs_streams s !! f))
  end.

(** The next [n] allocation requests are served. *)
Definition allocations_served (n : nat) (s : state) : bool :=
  forallb (fun b => b) (firstn n (heap s)).

(** The mask after the bits of [tokens] have been or-ed into [mask], in
    the order of the tokens and up to the first one that names no
    category. *)
Fixpoint mask_after (tokens : list string) (mask : Z) : Z :=
  match tokens with
  | [] => mask
  | token :: rest =>
      match category_rack err_categorylist token 1 with
      | Some rack => mask_after rest (Z.lor mask rack)
      | None => mask
      end
  end.

(** The thread list accounts for the calls in progress: every id is on
    the list once for each call of that id that holds a node, and at most
    one of these calls got its node as a first registration. *)
Definition accounted (s : state) (calls : list call) : Prop :=
  forall id,
    occurrences id (err_threadlist s) = count_calls (holds id) calls /\
    (count_calls (first_holds id) calls <= 1)%nat.

(** [preserves f m]: however [m] ends, the observation [f] of the state is
    what it was when [m] started. *)
Definition preserves {A X} (f : state -> X) (m : M A) : Prop :=
  forall s,
    match m s with
    | Returned _ s' | Exited _ s' => f s' = f s
    | Undefined => True
    end.

(** ** Sample values

    One choice of the constants of [err.h], and a freshly started process,
    on which the functions can be evaluated. *)

Definition sample_h : err_h :=
  {| LOGDEST_STDERR := 1; LOGDEST_SYSLOG := 2; LOGDEST_LOGFILE := 4;
     E_LOG := 1; E_INF := 5; E_DBG := 9; L_MISC := 0x80000000;
     TRUE := 1; FALSE := 0 |}.

Definition boot : state :=
  mkState 0 0 EmptyString None 0xFFFFFFFF 0 0 [] [] [] ∅ ∅ O ∅ []
    "2010-05-01 12:00:00" "Permission denied".

(** A thread with id 7 is inside [err_log]. *)
Definition busy : state := set_err_threadlist [7] boot.

(** A log file with an entry from an earlier run, and a process about to
    log to it. *)
Definition log_path : string := "/var/log/forked-daapd.log".

Definition earlier_entry : string :=
  "2010-04-30 09:15:02 (00000007): Startup complete" +:+ LF.

Definition before_logging : state :=
  mkState 0 0 EmptyString None 0xFFFFFFFF 0 0 [] [] []
    {[ log_path := [earlier_entry] ]} ∅ O ∅ []
    "2010-05-01 12:00:00" "Permission denied".

(** The file destination is set up and the log is reopened twice. *)
Definition reopen_twice : M unit :=
  let* opened := @err_setlogfile sample_h log_path in
  @err_setdest sample_h (@LOGDEST_LOGFILE sample_h) >>
  @err_reopen sample_h 7 >>
  @err_reopen sample_h 7.

(** Thread 7 has passed the entry of [err_log] with an error message. *)
Definition dispatching : call := mkCall 7 1 0 "cannot bind" AtSyslog false.

(** ** What the further properties speak about *)

(** The line [err_log] writes to the log file. *)
Definition log_line (s : state) (tid : Z) (errbuf : string) : string :=
  clock s +:+ " (" +:+ hex8 tid +:+ "): " +:+ errbuf.

(** The files after [text] has gone to the stream [err_file]. *)
Definition file_written (text : string) (s : state)
  : gmap string (list string) :=
  match err_file s with
  | Some f =>
      match fs_streams s !! f with
      | Some path =>
          <[path := default [] (fs_files s !! path) ++ [text]]> (fs_files s)
      | None => fs_files s
      end
  | None => fs_files s
  end.

(** The variables that the configuration functions set. *)
Definition configuration (s : state)
  : Z * Z * string * option FILE * Z * Z :=
  (err_debuglevel s, err_logdest s, err_filename s, err_file s,
   err_debugmask s, err_truncate s).

(** [ensures P m]: started where [P] holds, [m] ends where [P] holds. *)
Definition ensures {A} (P : state -> Prop) (m : M A) : Prop :=
  forall s,
    P s ->
    match m s with
    | Returned _ s' | Exited _ s' => P s'
    | Undefined => True
    end.

(** The characters of a C string as [strcasecmp] compares them. *)
Definition lower (a : string) : list Z :=
  map (fun c => tolower (char_code c)) (list_ascii_of_string a).

(** No NUL among the characters, as in every C string. *)
Definition nul_free (a : string) : Prop :=
  Forall (fun c => char_code c <> 0) (list_ascii_of_string a).

(** The token has at least one character and none of them is [delim]. *)
Definition is_token (delim : ascii) (t : string) : Prop :=
  t <> EmptyString /\ ~ In delim (list_ascii_of_string t).

(** The tokens written as one list, [delim] between neighbours. *)
Fixpoint join (delim : ascii) (tokens : list string) : string :=
  match tokens with
  | [] => EmptyString
  | [t] => t
  | t :: rest => t +:+ String delim (join delim rest)
  end.

(** [rack <<= 1], [n] times. *)
Definition rack_shifted (n : nat) (rack : Z) : Z :=
  Nat.iter n (fun r => Z.shiftl r 1 mod 2 ^ 32) rack.

(** [err_file] is a stream that is open. *)
Definition log_open (s : state) : bool :=
  match err_file s with
  | Some f => bool_decide (is_Some (fs_streams s !! f))
  | None => false
  end.

(** The open streams once [err_file], if not [NULL], has been closed. *)
Definition log_closed (s : state) : gmap FILE string :=
  match err_file s with
  | Some f => delete f (fs_streams s)
  | None => fs_streams s
  end.

(** Further sample states: the log file is open and among the
    destinations; the same with the log file no longer to be opened; a
    fresh process that cannot open the log file. *)
Definition logging : state :=
  mkState 0 4 log_path (Some O) 0xFFFFFFFF 0 0 [] [] []
    {[ log_path := [earlier_entry] ]} {[ O := log_path ]} 1%nat ∅ []
    "2010-05-01 12:00:00" "Permission denied".

Definition logging_locked : state :=
  mkState 0 4 log_path (Some O) 0xFFFFFFFF 0 0 [] [] []
    {[ log_path := [earlier_entry] ]} {[ O := log_path ]} 1%nat
    {[ log_path ]} [] "2010-05-01 12:00:00" "Permission denied".


(** * Properties *)

(** Unfolds the plumbing of a computation, leaving the C functions. *)
Ltac run_m := cbv beta iota delta [bind gets modify ret when undefined].

(** ** The thread list *)

Lemma thread_check_In (tid : Z) (l : list Z) :
  thread_check tid l = true <-> In tid l.
Proof.
  induction l as [|id l IH]; simpl.
  - split; [discriminate | tauto].
  - destruct (Z.eqb_spec id tid) as [->|Hne].
    + split; auto.
    + rewrite IH. split; [auto | intros [E|E]; [congruence | exact E]].
Qed.

Lemma thread_check_occurrences (tid : Z) (l : list Z) :
  thread_check tid l = false -> occurrences tid l = O.
Proof.
  induction l as [|id l IH]; simpl; [reflexivity|].
  destruct (id =? tid); [discriminate | exact IH].
Qed.

Lemma thread_del_head (tid : Z) (l : list Z) : thread_del tid (tid :: l) = l.
Proof. simpl. now rewrite Z.eqb_refl. Qed.

Lemma occurrences_thread_del (tid id : Z) (l : list Z) :
  occurrences id (thread_del tid l) =
  if tid =? id then Nat.pred (occurrences id l) else occurrences id l.
Proof.
  induction l as [|x l IH]; simpl.
  - now destruct (tid =? id).
  - destruct (Z.eqb_spec x tid) as [->|Hx].
    + destruct (Z.eqb_spec tid id) as [->|Hne]; [reflexivity|].
      reflexivity.
    + simpl. rewrite IH.
      destruct (Z.eqb_spec x id) as [->|Hxi].
      * destruct (Z.eqb_spec tid id) as [->|Hne]; [congruence | reflexivity].
      * reflexivity.
Qed.

Lemma occurrences_In (id : Z) (l : list Z) :
  occurrences id l = O -> ~ In id l.
Proof.
  induction l as [|x l IH]; simpl; [tauto|].
  destruct (Z.eqb_spec x id) as [->|Hne]; [discriminate|].
  intros E [F|F]; [congruence | exact (IH E F)].
Qed.

Lemma occurrences_NoDup (l : list Z) :
  (forall id, (occurrences id l <= 1)%nat) -> NoDup l.
Proof.
  induction l as [|x l IH]; intros Hocc; constructor.
  - rewrite list_elem_of_In. apply occurrences_In.
    specialize (Hocc x). simpl in Hocc.
    rewrite Z.eqb_refl in Hocc. lia.
  - apply IH. intros id. specialize (Hocc id). simpl in Hocc.
    destruct (x =? id); lia.
Qed.

(** ** Recursive calls *)

Section Recursive.

Context `{err_h}.

(** C2: a call of [err_log] at a severity of 1 or more by a thread whose id
    is on the thread list returns with the whole state as it was: nothing
    written to any sink, no variable changed, the thread list untouched. *)
Theorem err_log_recursive_dropped (tid level cat : Z) (expanded : string)
    (s : state) :
  1 <= level ->
  In tid (err_threadlist s) ->
  err_log tid level cat expanded s = Returned tt s.
Proof.
  intros Hlevel Hin.
  unfold err_log. run_m.
  destruct (err_log_filter level cat s); simpl; [|reflexivity].
  unfold err_log_guard, __err_thread_check. run_m.
  apply thread_check_In in Hin as Hcheck. rewrite Hcheck.
  destruct (err_threadlist s) as [|x l] eqn:El; [destruct Hin|].
  simpl. destruct (Z.eqb_spec level 0); [lia | reflexivity].
Qed.

End Recursive.

Lemma err_log_recursive_dropped_witness :
  @err_log sample_h 7 1 0 "disk full" busy = Returned tt busy.
Proof.
  apply (@err_log_recursive_dropped sample_h 7 1 0); [lia | now left].
Defined.

(** ** What a computation leaves alone *)

Section Preserves.

Context {X : Type} (f : state -> X).

Lemma preserves_ret {A} (a : A) : preserves f (ret a).
Proof. intros s. reflexivity. Qed.

Lemma preserves_gets {A} (g : state -> A) : preserves f (gets g).
Proof. intros s. reflexivity. Qed.

Lemma preserves_undefined {A} : preserves f (@undefined A).
Proof. intros s. exact I. Qed.

Lemma preserves_exit {A} (status : Z) : preserves f (@exit A status).
Proof. intros s. reflexivity. Qed.

Lemma preserves_modify (g : state -> state) :
  (forall s, f (g s) = f s) -> preserves f (modify g).
Proof. intros Hg s. simpl. apply Hg. Qed.

Lemma preserves_bind {A B} (m : M A) (k : A -> M B) :
  preserves f m -> (forall a, preserves f (k a)) -> preserves f (bind m k).
Proof.
  intros Hm Hk s. unfold bind. specialize (Hm s).
  destruct (m s) as [a s1|c s1|]; [|exact Hm|exact I].
  specialize (Hk a s1). destruct (k a s1); [| |exact I]; congruence.
Qed.

Lemma preserves_when (b : bool) (m : M unit) :
  preserves f m -> preserves f (when b m).
Proof. intros Hm. destruct b; [exact Hm | apply preserves_ret]. Qed.

Lemma preserves_malloc :
  (forall v s, f (set_heap v s) = f s) -> preserves f malloc.
Proof. intros Hf s. simpl. apply Hf. Qed.

Lemma preserves_fopen (path : string) (mode : fopen_mode) :
  (forall a b c s, f (set_fs a b c s) = f s) -> preserves f (fopen path mode).
Proof.
  intros Hf s. unfold fopen. destruct (decide _); [reflexivity | apply Hf].
Qed.

Lemma preserves_fclose (fp : option FILE) :
  (forall a b c s, f (set_fs a b c s) = f s) -> preserves f (fclose fp).
Proof.
  intros Hf s. unfold fclose. destruct fp as [fp|]; [|exact I].
  destruct (fs_streams s !! fp); [apply Hf | exact I].
Qed.

Lemma preserves_fprintf (fp : option FILE) (text : string) :
  (forall a b c s, f (set_fs a b c s) = f s) -> preserves f (fprintf fp text).
Proof.
  intros Hf s. unfold fprintf. destruct fp as [fp|]; [|exact I].
  destruct (fs_streams s !! fp); [apply Hf | exact I].
Qed.

End Preserves.

(** Walks through a computation built from the pieces above; what is left
    says that a setter does not touch the observed field. *)
Ltac preserve :=
  repeat first
    [ apply preserves_ret
    | apply preserves_gets
    | apply preserves_undefined
    | apply preserves_exit
    | apply preserves_bind; [|intros ?]
    | apply preserves_when
    | apply preserves_modify; intros; reflexivity
    | apply preserves_malloc; intros; reflexivity
    | apply preserves_fopen; intros; reflexivity
    | apply preserves_fclose; intros; reflexivity
    | apply preserves_fprintf; intros; reflexivity
    | match goal with
      | |- preserves _ (if ?b then _ else _) => destruct b
      | |- preserves _ (match ?x with _ => _ end) => destruct x
      end ].

Section ErrLogFacts.

Context `{err_h}.

Lemma err_log_syslog_threadlist level syslog_only errbuf :
  preserves err_threadlist (err_log_syslog level syslog_only errbuf).
Proof.
  unfold err_log_syslog, lvl2syslog_at, openlog, syslog, fprintf_stderr.
  preserve.
Qed.

Lemma err_log_sinks_threadlist tid level syslog_only errbuf :
  preserves err_threadlist (err_log_sinks tid level syslog_only errbuf).
Proof. unfold err_log_sinks, fprintf_stderr. preserve. Qed.

Lemma err_log_debugmask tid level cat expanded :
  preserves err_debugmask (err_log tid level cat expanded).
Proof.
  unfold err_log, err_log_guard, __err_thread_check, __err_thread_add,
    err_log_syslog, err_log_sinks, err_log_leave, __err_thread_del,
    err_log_exit, lvl2syslog_at, openlog, syslog, fprintf_stderr.
  preserve.
Qed.

Lemma err_log_syslog_valid level syslog_only errbuf :
  preserves handle_valid (err_log_syslog level syslog_only errbuf).
Proof.
  unfold err_log_syslog, lvl2syslog_at, openlog, syslog, fprintf_stderr.
  preserve.
Qed.

End ErrLogFacts.

(** ** The stretches of [err_log] *)

Section Stretches.

Context `{err_h}.

Lemma bind_eq {A B} (m : M A) (k : A -> M B) (s : state) :
  bind m k s =
  match m s with
  | Returned a s' => k a s'
  | Exited c s' => Exited c s'
  | Undefined => Undefined
  end.
Proof. reflexivity. Qed.

Lemma allocations_served_1 (s : state) :
  allocations_served 1 s = hd true (heap s).
Proof.
  unfold allocations_served. destruct (heap s) as [|[] rest]; reflexivity.
Qed.

Lemma handle_valid_open (s : state) (f : FILE) :
  handle_valid s = true -> err_file s = Some f ->
  exists path, fs_streams s !! f = Some path.
Proof.
  unfold handle_valid. intros Hv Hf. rewrite Hf in Hv.
  apply bool_decide_eq_true in Hv. destruct Hv as [path Hp]. eauto.
Qed.

(** [err_log] as the sequence of its stretches. *)
Lemma err_log_eq (tid level cat : Z) (expanded : string) (s : state) :
  err_log tid level cat expanded s =
  if err_log_filter level cat s then
    match err_log_guard tid level s with
    | Returned None s1 => Returned tt s1
    | Returned (Some syslog_only) s1 =>
        (err_log_syslog level syslog_only (vsnprintf_errbuf expanded) >>
         err_log_sinks tid level syslog_only (vsnprintf_errbuf expanded) >>
         err_log_leave tid >>
         err_log_exit level) s1
    | Exited c s1 => Exited c s1
    | Undefined => Undefined
    end
  else Returned tt s.
Proof.
  unfold err_log. rewrite bind_eq. unfold gets at 1.
  destruct (err_log_filter level cat s); [|reflexivity].
  cbn [negb]. rewrite bind_eq.
  destruct (err_log_guard tid level s) as [[so|] s1|c s1|]; reflexivity.
Qed.

(** The section under [m_errlist] at the entry, in closed form. *)
Lemma err_log_guard_eq (tid level : Z) (s : state) :
  err_log_guard tid level s =
  let listed := thread_check tid (err_threadlist s) in
  if listed && negb (level =? 0) then Returned None s
  else if hd true (heap s) then
    Returned (Some listed)
      (set_err_threadlist (tid :: err_threadlist s)
         (set_heap (tl (heap s)) s))
  else
    Exited 255
      (set_std_err (std_err s ++ ["malloc error in __err_thread_add" +:+ LF])
         (set_heap (tl (heap s)) s)).
Proof.
  unfold err_log_guard, __err_thread_check, __err_thread_add, malloc,
    fprintf_stderr, exit.
  run_m. cbv zeta.
  assert (Hlisted :
    negb (bool_decide (err_threadlist s = [])) &&
      thread_check tid (err_threadlist s) =
    thread_check tid (err_threadlist s)).
  { destruct (err_threadlist s); [reflexivity|].
    rewrite bool_decide_eq_false_2 by discriminate. reflexivity. }
  rewrite Hlisted.
  destruct (thread_check tid (err_threadlist s)); destruct (level =? 0);
    destruct (hd true (heap s)); reflexivity.
Qed.

(** The syslog part of a fatal message. *)
Lemma err_log_syslog_fatal (syslog_only : bool) (errbuf : string)
    (s : state) :
  err_log_syslog 0 syslog_only errbuf s =
  let sent :=
    set_sys_log
      (sys_log s ++ (if err_syslog_open s =? 0 then [Openlog] else []) ++
       [Syslog (if E_DBG <? 0 then LOG_DEBUG else LOG_ALERT) errbuf])
      (set_err_syslog_open 1 s) in
  if syslog_only then
    Exited 255 (set_std_err (std_err s ++ ["Aborting" +:+ LF]) sent)
  else Returned tt sent.
Proof.
  unfold err_log_syslog, lvl2syslog_at, openlog, syslog, fprintf_stderr, exit.
  run_m. cbv zeta.
  change (0 <=? 1) with true. change (0 =? 0) with true.
  change (0 <? 0) with false. cbv iota beta.
  destruct (err_syslog_open s =? 0); destruct (E_DBG <? 0);
    destruct syslog_only; simpl; rewrite <- ?app_assoc; reflexivity.
Qed.

(** Without [syslog_only] the syslog part does not end the process. *)
Lemma err_log_syslog_no_exit (level : Z) (errbuf : string) (s : state)
    (c : Z) (s' : state) :
  err_log_syslog level false errbuf s <> Exited c s'.
Proof.
  unfold err_log_syslog, lvl2syslog_at, openlog, syslog, fprintf_stderr, exit.
  run_m. cbn [andb].
  destruct (level <=? 1); [|discriminate].
  destruct (err_syslog_open s =? 0); cbv beta iota;
    destruct (E_DBG <? level); cbv beta iota; try discriminate;
    destruct (level <? 0); cbv beta iota; try discriminate;
    destruct (lvl2syslog !! Z.to_nat level); discriminate.
Qed.

(** The text that [err_log_sinks] sends to standard error. *)
Lemma err_log_sinks_returns (tid level : Z) (syslog_only : bool)
    (errbuf : string) (s : state) :
  handle_valid s = true ->
  exists s1,
    err_log_sinks tid level syslog_only errbuf s = Returned tt s1 /\
    std_err s1 =
      std_err s ++
      (if negb (Z.land (err_logdest s) LOGDEST_STDERR =? 0) || (level =? 0)
       then errbuf :: (if level =? 0 then ["Aborting" +:+ LF] else [])
       else []) /\
    err_threadlist s1 = err_threadlist s /\
    sys_log s1 = sys_log s.
Proof.
  intros Hvalid.
  unfold err_log_sinks, fprintf_stderr. run_m.
  destruct (negb (Z.land (err_logdest s) LOGDEST_LOGFILE =? 0) &&
            bool_decide (err_file s <> None) && negb syslog_only) eqn:Efile.
  - destruct (err_file s) as [f|] eqn:Ef.
    2:{ rewrite bool_decide_eq_false_2 in Efile by congruence.
        rewrite andb_false_r in Efile. discriminate. }
    destruct (handle_valid_open s f Hvalid Ef) as [path Hpath].
    unfold fprintf. cbv beta. rewrite Hpath.
    destruct (level =? 0); cbv beta; cbn [fs_streams set_fs];
      rewrite ?Hpath;
      destruct (negb (Z.land (err_logdest s) LOGDEST_STDERR =? 0));
      cbn [orb]; cbv beta; eexists; (split; [reflexivity|]); simpl;
      rewrite <- ?app_assoc, ?app_nil_r; repeat split; reflexivity.
  - destruct (level =? 0);
      destruct (negb (Z.land (err_logdest s) LOGDEST_STDERR =? 0));
      cbn [orb]; cbv beta; eexists; (split; [reflexivity|]); simpl;
      rewrite <- ?app_assoc, ?app_nil_r; repeat split; reflexivity.
Qed.


(** From severity 0 upwards the syslog part stays within the table. *)
Lemma err_log_syslog_defined (level : Z) (syslog_only : bool)
    (errbuf : string) (s : state) :
  0 <= level ->
  err_log_syslog level syslog_only errbuf s <> Undefined.
Proof.
  intros Hlevel.
  unfold err_log_syslog, lvl2syslog_at, openlog, syslog, fprintf_stderr, exit.
  run_m.
  destruct (Z.leb_spec level 1); [|discriminate].
  assert (level = 0 \/ level = 1) as [-> | ->] by lia;
    destruct (err_syslog_open s =? 0); cbv beta iota;
    match goal with |- context [E_DBG <? ?l] => destruct (E_DBG <? l) end;
    destruct syslog_only; discriminate.
Qed.


End Stretches.

(** ** Fatal messages *)

Section Fatal.

Context `{err_h}.

(** C1, as the code has it: a fatal call by a thread whose id is on the
    thread list (its list node being allocated) sends the message to
    syslog exactly once, writes the line "Aborting" to standard error and
    ends the process through [exit(-1)]; the log file is not written and
    the message itself does not go to the console. *)
Theorem err_log_recursive_fatal (tid cat : Z) (expanded : string)
    (s : state) :
  In tid (err_threadlist s) ->
  allocations_served 1 s = true ->
  exists s',
    err_log tid 0 cat expanded s = Exited 255 s' /\
    sys_log s' =
      sys_log s ++ (if err_syslog_open s =? 0 then [Openlog] else []) ++
      [Syslog (if E_DBG <? 0 then LOG_DEBUG else LOG_ALERT)
              (vsnprintf_errbuf expanded)] /\
    std_err s' = std_err s ++ ["Aborting" +:+ LF] /\
    fs_files s' = fs_files s /\
    fs_streams s' = fs_streams s.
Proof.
  intros Hin Halloc. rewrite allocations_served_1 in Halloc.
  apply thread_check_In in Hin as Hcheck.
  rewrite err_log_eq. change (err_log_filter 0 cat s) with true. cbv iota.
  rewrite err_log_guard_eq. cbv zeta. rewrite Hcheck, Halloc.
  change (0 =? 0) with true. cbn [negb andb]. rewrite bind_eq.
  rewrite err_log_syslog_fatal. cbv zeta.
  eexists. split; [reflexivity|]. repeat split.
Qed.

End Fatal.

Lemma err_log_recursive_fatal_witness :
  exists s',
    @err_log sample_h 7 0 0 "out of memory" busy = Exited 255 s' /\
    sys_log s' = [Openlog; Syslog LOG_ALERT "out of memory"] /\
    std_err s' = ["Aborting" +:+ LF] /\
    fs_files s' = ∅ /\ fs_streams s' = ∅.
Proof.
  apply (@err_log_recursive_fatal sample_h 7 0 "out of memory" busy).
  - now left.
  - reflexivity.
Defined.

(** What C1 rules out does happen: the fatal recursive call writes to
    standard error before it ends the process. *)
Lemma err_log_recursive_fatal_console :
  In 7 (err_threadlist busy) /\
  exists s',
    @err_log sample_h 7 0 0 "out of memory" busy = Exited 255 s' /\
    std_err s' = std_err busy ++ ["Aborting" +:+ LF] /\
    std_err s' <> std_err busy.
Proof.
  split; [now left|]. eexists. split; [lazy; reflexivity|].
  split; [reflexivity | discriminate].
Qed.

(** ** Entering and leaving the thread list *)

Section Balance.

Context `{err_h}.




End Balance.



(** ** The log file *)

Section LogFile.

Context `{err_h}.

Lemma land_clear_bit (d bit : Z) : Z.land (Z.land d (Z.lnot bit)) bit = 0.
Proof.
  rewrite <- Z.land_assoc, (Z.land_comm (Z.lnot bit)), Z.land_lnot_diag.
  apply Z.land_0_r.
Qed.

(** [err_setlogfile] when the file can be opened. *)
Lemma err_setlogfile_opened (file : string) (s : state) :
  handle_valid s = true ->
  truncate_to PATH_MAX file ∉ fs_denied s ->
  exists s',
    err_setlogfile file s = Returned TRUE s' /\
    err_file s' = Some (fs_next s) /\
    fs_streams s' !! fs_next s = Some (truncate_to PATH_MAX file) /\
    err_logdest s' = err_logdest s /\
    err_filename s' = truncate_to PATH_MAX file.
Proof.
  intros Hvalid Hopen.
  unfold err_setlogfile. run_m.
  destruct (err_file s) as [f|] eqn:Ef.
  - destruct (handle_valid_open s f Hvalid Ef) as [path Hpath].
    rewrite bool_decide_eq_true_2 by discriminate.
    unfold fclose. rewrite Hpath. cbv beta iota.
    unfold fopen. cbn [fs_denied set_fs set_err_filename err_filename].
    rewrite decide_False by exact Hopen.
    eexists. split; [reflexivity|].
    cbn. rewrite lookup_insert_eq. auto.
  - rewrite bool_decide_eq_false_2 by (intros E; now apply E).
    cbv beta iota.
    unfold fopen. cbn [fs_denied set_fs set_err_filename err_filename].
    rewrite decide_False by exact Hopen.
    eexists. split; [reflexivity|].
    cbn. rewrite lookup_insert_eq. auto.
Qed.

(** [err_setlogfile] when the file cannot be opened. *)
Lemma err_setlogfile_failed (file : string) (s : state) :
  handle_valid s = true ->
  truncate_to PATH_MAX file ∈ fs_denied s ->
  exists s',
    err_setlogfile file s = Returned FALSE s' /\
    err_file s' = None /\
    Z.land (err_logdest s') LOGDEST_LOGFILE = 0.
Proof.
  intros Hvalid Hdenied.
  unfold err_setlogfile, lvl2syslog_at, openlog, syslog, fprintf_stderr.
  run_m.
  destruct (err_file s) as [f|] eqn:Ef.
  - destruct (handle_valid_open s f Hvalid Ef) as [path Hpath].
    rewrite bool_decide_eq_true_2 by discriminate.
    unfold fclose. rewrite Hpath. cbv beta iota.
    unfold fopen. cbn [fs_denied set_fs set_err_filename err_filename].
    rewrite decide_True by exact Hdenied.
    simpl (err_syslog_open _).
    destruct (err_syslog_open s =? 0); cbv beta iota;
      (eexists; split; [reflexivity|]); cbn; split; auto using land_clear_bit.
  - rewrite bool_decide_eq_false_2 by (intros E; now apply E).
    cbv beta iota.
    unfold fopen. cbn [fs_denied set_fs set_err_filename err_filename].
    rewrite decide_True by exact Hdenied.
    simpl (err_syslog_open _).
    destruct (err_syslog_open s =? 0); cbv beta iota;
      (eexists; split; [reflexivity|]); cbn; split; auto using land_clear_bit.
Qed.

Lemma err_setlogfile_returns (file : string) (s : state) :
  handle_valid s = true ->
  exists r s', err_setlogfile file s = Returned r s'.
Proof.
  intros Hvalid.
  destruct (decide (truncate_to PATH_MAX file ∈ fs_denied s)) as [Hd|Hd].
  - destruct (err_setlogfile_failed file s Hvalid Hd) as (s' & Hrun & _).
    eauto.
  - destruct (err_setlogfile_opened file s Hvalid Hd) as (s' & Hrun & _).
    eauto.
Qed.



(** With a log handle that is [NULL] or open, [err_settruncate] returns
    [TRUE] whatever value it is given, and when the value is the one the
    flag already has, the state it returns is the state it was called
    in. *)
Theorem err_settruncate_TRUE (truncate : Z) (s : state) :
  handle_valid s = true ->
  exists s',
    err_settruncate truncate s = Returned TRUE s' /\
    (truncate = err_truncate s -> s' = s).
Proof.
  intros Hvalid. unfold err_settruncate. run_m.
  destruct (Z.eqb_spec (err_truncate s) truncate) as [E|Hne].
  - exists s. auto.
  - cbn [err_file set_err_truncate].
    destruct (negb (truncate =? 0) && bool_decide (err_file s <> None)).
    + unfold malloc. cbv beta iota.
      cbn [err_filename set_heap set_err_truncate].
      match goal with
      | |- context [err_setlogfile ?file ?s1] =>
          destruct (err_setlogfile_returns file s1 Hvalid) as (r & s2 & Hrun);
          rewrite Hrun
      end.
      exists s2. split; [reflexivity | congruence].
    + cbv beta iota. eexists. split; [reflexivity | congruence].
Qed.

(** [err_reopen] on a log file that can be opened: the file is opened in
    mode ["w"], [err_truncate] is not consulted, and the first thing
    written to the emptied file is the message of [err_reopen] itself. *)
Lemma err_reopen_mode_w (tid : Z) (s : state) (f : FILE) (path : string) :
  Z.land (err_logdest s) LOGDEST_LOGFILE <> 0 ->
  err_file s = Some f ->
  fs_streams s !! f = Some path ->
  err_filename s ∉ fs_denied s ->
  err_reopen tid s =
  DPRINTF tid E_LOG L_MISC ("Rotated logs" +:+ LF)
    (set_err_file (Some (fs_next s))
       (set_fs (<[err_filename s := []]> (fs_files s))
               (<[fs_next s := err_filename s]> (delete f (fs_streams s)))
               (S (fs_next s)) s)).
Proof.
  intros Hon Hfile Hpath Hopen.
  unfold err_reopen. run_m.
  destruct (Z.eqb_spec (Z.land (err_logdest s) LOGDEST_LOGFILE) 0);
    [contradiction|].
  rewrite Hfile. unfold fclose. rewrite Hpath. cbv beta iota.
  unfold fopen. cbn [fs_denied err_filename set_fs].
  rewrite decide_False by exact Hopen. reflexivity.
Qed.

End LogFile.


Lemma err_settruncate_TRUE_witness :
  (exists s', @err_settruncate sample_h 1 boot = Returned 1 s') /\
  @err_settruncate sample_h 0 boot = Returned 1 boot.
Proof.
  split.
  - destruct (@err_settruncate_TRUE sample_h 1 boot eq_refl) as (s' & Hrun & _).
    exists s'. exact Hrun.
  - destruct (@err_settruncate_TRUE sample_h 0 boot eq_refl)
      as (s' & Hrun & Hsame).
    rewrite <- (Hsame eq_refl) at 2. exact Hrun.
Defined.


(** The handle [err_setdest] leaves behind: the stream is closed, [err_file]
    still names it, and the next [err_setlogfile] closes it once more. *)
Lemma err_setdest_stale_handle :
  exists s',
    (let* opened := @err_setlogfile sample_h log_path in
     @err_setdest sample_h 4 >> @err_setdest sample_h 0) before_logging =
      Returned tt s' /\
    err_file s' = Some O /\
    fs_streams s' !! O = None /\
    @err_setlogfile sample_h log_path s' = Undefined.
Proof.
  eexists. split; [vm_compute; reflexivity|]. repeat split.
Qed.

(** C6 at work: with the truncate flag clear, the entry that was in the
    log file before is gone after the file destination has been set up
    and [err_reopen] has run twice. *)
Theorem err_reopen_truncates_unasked :
  err_truncate before_logging = 0 /\
  fs_files before_logging !! log_path = Some [earlier_entry] /\
  exists s',
    reopen_twice before_logging = Returned tt s' /\
    err_truncate s' = 0 /\
    fs_files s' !! log_path =
      Some ["2010-05-01 12:00:00 (00000007): Rotated logs" +:+ LF].
Proof.
  split; [reflexivity|]. split; [reflexivity|].
  eexists. split; [vm_compute; reflexivity|]. split; reflexivity.
Qed.

(** ** The category mask *)

Section DebugMask.

Context `{err_h}.

(** The syslog part of a message that is not fatal. *)
Lemma err_log_syslog_returns (level : Z) (syslog_only : bool)
    (errbuf : string) (s : state) :
  1 <= level ->
  exists s', err_log_syslog level syslog_only errbuf s = Returned tt s'.
Proof.
  intros Hlevel.
  unfold err_log_syslog, lvl2syslog_at, openlog, syslog. run_m.
  destruct (Z.leb_spec level 1); [|eauto].
  assert (level = 1) as -> by lia.
  change (1 =? 0) with false. rewrite andb_false_r.
  destruct (err_syslog_open s =? 0); cbv beta iota;
    destruct (E_DBG <? 1); cbv beta iota; eauto.
Qed.

(** A message that is not fatal comes back from [err_log], provided the
    log file handle is usable and a list node can be had. *)
Lemma err_log_returns (tid level cat : Z) (expanded : string) (s : state) :
  1 <= level ->
  handle_valid s = true ->
  allocations_served 1 s = true ->
  exists s', err_log tid level cat expanded s = Returned tt s'.
Proof.
  intros Hlevel Hvalid Halloc. rewrite allocations_served_1 in Halloc.
  rewrite err_log_eq. destruct (err_log_filter level cat s); [|eauto].
  rewrite err_log_guard_eq. cbv zeta.
  destruct (Z.eqb_spec level 0) as [|_]; [lia|]. cbn [negb].
  rewrite andb_true_r, Halloc.
  destruct (thread_check tid (err_threadlist s)); [eauto|].
  set (s1 := set_err_threadlist _ _). rewrite bind_eq.
  pose proof (err_log_syslog_valid level false (vsnprintf_errbuf expanded) s1)
    as Hkeep.
  destruct (err_log_syslog_returns level false (vsnprintf_errbuf expanded) s1
              Hlevel) as [s2 Hsys].
  rewrite Hsys in Hkeep |- *. rewrite bind_eq.
  destruct (err_log_sinks_returns tid level false (vsnprintf_errbuf expanded)
              s2) as (s3 & Hsinks & _).
  { rewrite Hkeep. exact Hvalid. }
  rewrite Hsinks.
  unfold err_log_leave, __err_thread_del, err_log_exit. run_m.
  destruct (Z.eqb_spec level 0); [lia | eauto].
Qed.

(** The rounds of the loop over tokens that name a category. *)
Lemma err_setdebugmask_loop_known (tid : Z) (known rest : list string) :
  Forall (fun token => category_rack err_categorylist token 1 <> None) known ->
  forall (mask : Z) (s : state),
    err_setdebugmask_loop tid (known ++ rest) (set_err_debugmask mask s) =
    err_setdebugmask_loop tid rest
      (set_err_debugmask (mask_after known mask) s).
Proof.
  induction 1 as [|token known Hknown _ IH]; intros mask s; [reflexivity|].
  cbn [app err_setdebugmask_loop mask_after].
  destruct (category_rack err_categorylist token 1) as [rack|];
    [|contradiction].
  rewrite bind_eq. unfold modify at 1. cbv beta iota.
  exact (IH (Z.lor mask rack) s).
Qed.

End DebugMask.

(** What C5 rules out does happen: after the failure the mask holds the
    bit of the token before the unknown one and the always-on bit, and
    nothing of the mask that was active before. *)
Lemma err_setdebugmask_partial_mask :
  exists s',
    @err_setdebugmask sample_h 7 "config,bogus" boot = Returned 1 s' /\
    err_debugmask boot = 0xFFFFFFFF /\
    category_rack err_categorylist "config" 1 = Some 1 /\
    err_debugmask s' = Z.lor 0x80000000 1.
Proof.
  eexists. split; [vm_compute; reflexivity|]. repeat split.
Qed.

(** ** Calls in progress *)

(** Exposes the next stretch of a call that is run to its end. *)
Ltac next_stretch :=
  cbn [call_run call_step move enter_call c_at c_level c_cat c_tid c_text
       c_syslog_only];
  rewrite ?bind_eq.

Section InFlight.

Context `{err_h}.

(** An uninterrupted call is [err_log]. *)
Lemma err_log_call_run (tid level cat : Z) (expanded : string) (s : state) :
  err_log tid level cat expanded s =
  call_run 6 (enter_call tid level cat expanded) s.
Proof.
  rewrite err_log_eq. next_stretch.
  unfold gets at 1.
  destruct (err_log_filter level cat s); [|reflexivity].
  cbn [negb]. unfold ret at 1. next_stretch.
  destruct (err_log_guard tid level s) as [[so|] s1|c s1|]; try reflexivity.
  unfold ret at 1. next_stretch.
  destruct (err_log_syslog level so (vsnprintf_errbuf expanded) s1)
    as [[] s2|c s2|]; try reflexivity.
  unfold ret at 1. next_stretch.
  destruct (err_log_sinks tid level so (vsnprintf_errbuf expanded) s2)
    as [[] s3|c s3|]; try reflexivity.
  unfold ret at 1. next_stretch.
  destruct (err_log_leave tid s3) as [[] s4|c s4|]; try reflexivity.
  unfold ret at 1. next_stretch.
  destruct (err_log_exit level s4) as [[] s5|c s5|]; reflexivity.
Qed.

Lemma count_calls_app (P : call -> bool) (a b : list call) :
  count_calls P (a ++ b) = (count_calls P a + count_calls P b)%nat.
Proof. induction a as [|c a IH]; simpl; [reflexivity | lia]. Qed.

Lemma count_calls_first_holds (id : Z) (calls : list call) :
  (count_calls (first_holds id) calls <= count_calls (holds id) calls)%nat.
Proof.
  induction calls as [|c calls IH]; simpl; [lia|].
  unfold first_holds at 1. destruct (holds id c), (c_syslog_only c); simpl; lia.
Qed.

Lemma count_calls_no_fatal_recursive (id : Z) (calls : list call) :
  count_calls fatal_recursive calls = O ->
  count_calls (holds id) calls = count_calls (first_holds id) calls.
Proof.
  induction calls as [|c calls IH]; simpl; [reflexivity|].
  intros E. destruct (fatal_recursive c) eqn:Hfatal; [discriminate|].
  rewrite (IH E). f_equal.
  unfold first_holds, holds. unfold fatal_recursive in Hfatal.
  destruct (registered c), (c_syslog_only c), (c_tid c =? id);
    simpl in *; try reflexivity; discriminate.
Qed.

(** A stretch after which the call goes on. *)
Lemma call_step_goes_on (c c' : call) (s s' : state) (id : Z) :
  call_step c s = Returned (Some c') s' ->
  (weight (holds id) c <= occurrences id (err_threadlist s))%nat ->
  (occurrences id (err_threadlist s') + weight (holds id) c =
   occurrences id (err_threadlist s) + weight (holds id) c')%nat /\
  ((weight (first_holds id) c' <= weight (first_holds id) c)%nat \/
   occurrences id (err_threadlist s) = O).
Proof.
  destruct c as [tid level cat text at_ so].
  unfold call_step, weight, first_holds, holds, registered, move.
  cbn [c_at c_tid c_level c_cat c_text c_syslog_only].
  destruct at_; rewrite bind_eq.
  - unfold gets. destruct (err_log_filter level cat s); cbn [negb];
      [|discriminate].
    intros [= <- <-] _. cbn. split; [lia | auto].
  - rewrite err_log_guard_eq. cbv zeta.
    destruct (thread_check tid (err_threadlist s)) eqn:Hcheck;
      destruct (level =? 0); cbn [negb andb]; try discriminate;
      destruct (hd true (heap s)); try discriminate;
      intros [= <- <-] _; cbn;
      destruct (Z.eqb_spec tid id) as [->|Hne]; cbn;
      (split; [lia|]); auto; right; now apply thread_check_occurrences.
  - pose proof (err_log_syslog_threadlist level so (vsnprintf_errbuf text) s)
      as Hkeep.
    destruct (err_log_syslog level so (vsnprintf_errbuf text) s)
      as [[] s1|c s1|]; try discriminate.
    intros [= <- <-] _. cbn. rewrite Hkeep. split; [lia | auto].
  - pose proof (err_log_sinks_threadlist tid level so (vsnprintf_errbuf text) s)
      as Hkeep.
    destruct (err_log_sinks tid level so (vsnprintf_errbuf text) s)
      as [[] s1|c s1|]; try discriminate.
    intros [= <- <-] _. cbn. rewrite Hkeep. split; [lia | auto].
  - unfold err_log_leave, __err_thread_del, modify, ret.
    intros [= <- <-]. cbn. rewrite occurrences_thread_del.
    destruct (tid =? id); cbn; intros Hpos; split; auto; lia.
  - unfold err_log_exit, when, exit, ret.
    destruct (level =? 0); discriminate.
Qed.

(** A stretch with which the call returns. *)
Lemma call_step_returns (c : call) (s s' : state) :
  call_step c s = Returned None s' ->
  err_threadlist s' = err_threadlist s /\ registered c = false.
Proof.
  destruct c as [tid level cat text at_ so].
  unfold call_step, registered, move.
  cbn [c_at c_tid c_level c_cat c_text c_syslog_only].
  destruct at_; rewrite bind_eq.
  - unfold gets. destruct (err_log_filter level cat s); cbn [negb];
      [discriminate|].
    intros [= <-]. auto.
  - rewrite err_log_guard_eq. cbv zeta.
    destruct (thread_check tid (err_threadlist s) && negb (level =? 0));
      [intros [= <-]; auto|].
    destruct (hd true (heap s)); discriminate.
  - destruct (err_log_syslog level so (vsnprintf_errbuf text) s)
      as [[] s1|c s1|]; discriminate.
  - destruct (err_log_sinks tid level so (vsnprintf_errbuf text) s)
      as [[] s1|c s1|]; discriminate.
  - unfold err_log_leave, __err_thread_del, modify, ret. discriminate.
  - unfold err_log_exit, when, exit, ret.
    destruct (level =? 0); [discriminate|]. intros [= <-]. auto.
Qed.

Lemma step_accounted (s s' : state) (calls calls' : list call) :
  accounted s calls ->
  step (Running s calls) (Running s' calls') ->
  accounted s' calls'.
Proof.
  intros Hacc Hstep. inversion Hstep as [? ? tid level cat text|? before c after];
    subst.
  - intros id. destruct (Hacc id) as [Hocc Hfirst].
    cbn [count_calls]. unfold first_holds at 1, holds at 1 3. cbn. auto.
  - destruct (call_step c s) as [[c'|] s1|status s1|] eqn:Hrun;
      cbn [resume] in *; try discriminate;
      match goal with E : Running _ _ = Running _ _ |- _ =>
        injection E as <- <- end;
      intros id; destruct (Hacc id) as [Hocc Hfirst];
      rewrite !count_calls_app in *; cbn [count_calls] in *.
    + destruct (call_step_goes_on c c' s s1 id Hrun) as [Hholds Hone].
      { unfold weight. lia. }
      unfold weight in *. split; [lia|].
      destruct Hone as [Hone|Hzero]; [lia|].
      pose proof (count_calls_first_holds id before).
      pose proof (count_calls_first_holds id after).
      destruct (first_holds id c'); lia.
    + destruct (call_step_returns c s s1 Hrun) as [Hsame Hout].
      rewrite Hsame. unfold first_holds, holds in *. rewrite Hout in *.
      cbn in *. split; lia.
Qed.

Lemma reachable_accounted (from : state) (p : process) :
  err_threadlist from = [] ->
  rtc step (Running from []) p ->
  match p with
  | Running s calls => accounted s calls
  | _ => True
  end.
Proof.
  intros Hempty. revert p.
  apply (rtc_ind_r
           (fun p => match p with
                     | Running s calls => accounted s calls
                     | _ => True
                     end)).
  - intros id. rewrite Hempty. cbn. auto.
  - intros p q _ Hstep IH.
    destruct q as [s' calls'| |]; [|exact I|exact I].
    destruct p as [s calls| |]; [|inversion Hstep|inversion Hstep].
    exact (step_accounted s s' calls calls' IH Hstep).
Qed.

(** C9, as the code has it: at every point of any interleaving of calls of
    [err_log], started on an empty thread list, an id is on the list once
    for every call of that id in progress between the linking and the
    unlinking of its node, and so only while such a call lasts; the ids on
    the list are pairwise distinct as long as no fatal recursive call is
    among the calls in progress. *)
Theorem threadlist_in_flight (from s : state) (calls : list call) :
  err_threadlist from = [] ->
  rtc step (Running from []) (Running s calls) ->
  (forall id,
     occurrences id (err_threadlist s) = count_calls (holds id) calls) /\
  (count_calls fatal_recursive calls = O -> NoDup (err_threadlist s)).
Proof.
  intros Hempty Hreach.
  pose proof (reachable_accounted from _ Hempty Hreach) as Hacc.
  split.
  - intros id. apply Hacc.
  - intros Hnone. apply occurrences_NoDup. intros id.
    destruct (Hacc id) as [-> Hfirst].
    now rewrite (count_calls_no_fatal_recursive id calls Hnone).
Qed.

End InFlight.

(** Thread 7 on its way through [err_log]. *)
Lemma dispatching_reached :
  rtc (@step sample_h) (Running boot []) (Running busy [dispatching]).
Proof.
  eapply rtc_l; [apply (@step_enter sample_h boot [] 7 1 0 "cannot bind")|].
  eapply rtc_l;
    [apply (@step_stretch sample_h boot [] (enter_call 7 1 0 "cannot bind") [])|].
  vm_compute.
  eapply rtc_l; [eapply (@step_stretch sample_h _ [] _ [])|].
  vm_compute. apply rtc_refl.
Qed.

Lemma threadlist_in_flight_witness :
  occurrences 7 (err_threadlist busy) = 1%nat /\ NoDup (err_threadlist busy).
Proof.
  destruct (@threadlist_in_flight sample_h boot busy [dispatching] eq_refl
              dispatching_reached) as [Hocc Hnodup].
  split; [exact (Hocc 7) | exact (Hnodup eq_refl)].
Defined.

(** What C9 rules out does happen: a fatal call made on thread 7 while its
    earlier call is still in progress puts the id on the list a second
    time. *)
Lemma threadlist_duplicate_reached :
  exists s calls,
    rtc (@step sample_h) (Running boot []) (Running s calls) /\
    err_threadlist s = [7; 7] /\
    ~ NoDup (err_threadlist s).
Proof.
  assert (Hreach : exists s calls,
    rtc (@step sample_h) (Running boot []) (Running s calls) /\
    err_threadlist s = [7; 7]).
  { eexists _, _. split.
    - eapply rtc_trans; [exact dispatching_reached|].
      eapply rtc_l;
        [apply (@step_enter sample_h busy [dispatching] 7 0 0 "out of memory")|].
      eapply rtc_l; [eapply (@step_stretch sample_h _ [] _ [dispatching])|].
      vm_compute.
      eapply rtc_l; [eapply (@step_stretch sample_h _ [] _ [_])|].
      vm_compute. apply rtc_refl.
    - reflexivity. }
  destruct Hreach as (s & calls & Hreach & Hlist).
  exists s, calls. split; [exact Hreach|]. split; [exact Hlist|].
  rewrite Hlist. intros Hnodup. apply NoDup_cons in Hnodup as [Hnotin _].
  apply Hnotin. constructor.
Qed.

(** * Further properties *)

(** ** Messages that are not fatal *)

Section Dispatch.

Context `{err_h}.

(** The syslog part of an error of severity 1. *)
Lemma err_log_syslog_error (errbuf : string) (s : state) :
  err_log_syslog 1 false errbuf s =
  Returned tt
    (set_sys_log
       (sys_log s ++ (if err_syslog_open s =? 0 then [Openlog] else []) ++
        [Syslog (if E_DBG <? 1 then LOG_DEBUG else LOG_ALERT) errbuf])
       (set_err_syslog_open 1 s)).
Proof.
  unfold err_log_syslog, lvl2syslog_at, openlog, syslog.
  run_m. change (1 <=? 1) with true. cbv beta iota.
  destruct (err_syslog_open s =? 0); destruct (E_DBG <? 1);
    simpl; rewrite <- ?app_assoc; reflexivity.
Qed.

(** From severity 2 on there is no syslog part. *)
Lemma err_log_syslog_quiet (level : Z) (syslog_only : bool)
    (errbuf : string) :
  2 <= level -> err_log_syslog level syslog_only errbuf = ret tt.
Proof.
  intros Hlevel. unfold err_log_syslog.
  destruct (Z.leb_spec level 1); [lia | reflexivity].
Qed.

(** File and console for a message that is not fatal. *)
Lemma err_log_sinks_nonfatal (tid level : Z) (errbuf : string) (s : state) :
  level <> 0 ->
  handle_valid s = true ->
  exists s1,
    err_log_sinks tid level false errbuf s = Returned tt s1 /\
    std_err s1 =
      std_err s ++
      (if Z.land (err_logdest s) LOGDEST_STDERR =? 0 then [] else [errbuf]) /\
    fs_files s1 =
      (if Z.land (err_logdest s) LOGDEST_LOGFILE =? 0 then fs_files s
       else file_written (log_line s tid errbuf) s) /\
    fs_streams s1 = fs_streams s /\
    configuration s1 = configuration s /\
    err_threadlist s1 = err_threadlist s /\
    sys_log s1 = sys_log s /\
    err_syslog_open s1 = err_syslog_open s.
Proof.
  intros Hlevel Hvalid.
  unfold err_log_sinks, fprintf_stderr. run_m.
  destruct (Z.eqb_spec level 0) as [|_]; [contradiction|].
  rewrite orb_false_r, andb_true_r.
  destruct (err_file s) as [f|] eqn:Hfile.
  - destruct (handle_valid_open s f Hvalid Hfile) as [path Hpath].
    rewrite bool_decide_eq_true_2, andb_true_r by discriminate.
    destruct (Z.land (err_logdest s) LOGDEST_LOGFILE =? 0);
      cbn [negb]; cbv beta iota; unfold fprintf; rewrite ?Hpath;
      destruct (Z.land (err_logdest s) LOGDEST_STDERR =? 0);
      cbn [negb]; cbv beta iota; eexists; (split; [reflexivity|]);
      unfold configuration, file_written, log_line; cbn;
      rewrite ?app_nil_r, ?Hfile, ?Hpath; repeat split; reflexivity.
  - rewrite bool_decide_eq_false_2, andb_false_r by (intros E; now apply E).
    destruct (Z.land (err_logdest s) LOGDEST_LOGFILE =? 0);
      destruct (Z.land (err_logdest s) LOGDEST_STDERR =? 0);
      cbn [negb]; cbv beta iota; eexists; (split; [reflexivity|]);
      unfold configuration, file_written, log_line; cbn;
      rewrite ?app_nil_r, ?Hfile; repeat split; reflexivity.
Qed.

(** X1: a message of severity 1 or more that passes the filter, logged by
    a thread that is not on the thread list, makes [err_log] return with
    the thread list as before; the message has gone to syslog exactly when
    the severity is 1 (after an [openlog] if none was made before), to
    standard error exactly when the console is among the destinations, and
    as one stamped line to the log file exactly when the file is among the
    destinations and a log file is open. *)
Theorem err_log_dispatch (tid level cat : Z) (expanded : string)
    (s : state) :
  1 <= level ->
  err_log_filter level cat s = true ->
  ~ In tid (err_threadlist s) ->
  handle_valid s = true ->
  allocations_served 1 s = true ->
  exists s',
    err_log tid level cat expanded s = Returned tt s' /\
    sys_log s' =
      sys_log s ++
      (if level =? 1 then
         (if err_syslog_open s =? 0 then [Openlog] else []) ++
         [Syslog (if E_DBG <? 1 then LOG_DEBUG else LOG_ALERT)
                 (vsnprintf_errbuf expanded)]
       else []) /\
    std_err s' =
      std_err s ++
      (if Z.land (err_logdest s) LOGDEST_STDERR =? 0 then []
       else [vsnprintf_errbuf expanded]) /\
    fs_files s' =
      (if Z.land (err_logdest s) LOGDEST_LOGFILE =? 0 then fs_files s
       else file_written (log_line s tid (vsnprintf_errbuf expanded)) s) /\
    err_threadlist s' = err_threadlist s.
Proof.
  intros Hlevel Hpass Hnotin Hvalid Halloc.
  rewrite allocations_served_1 in Halloc.
  assert (Hcheck : thread_check tid (err_threadlist s) = false).
  { destruct (thread_check tid (err_threadlist s)) eqn:E; [|reflexivity].
    apply thread_check_In in E. contradiction. }
  rewrite err_log_eq, Hpass, err_log_guard_eq. cbv zeta.
  rewrite Hcheck, Halloc. cbn [andb]. rewrite bind_eq.
  set (s1 := set_err_threadlist _ _).
  assert (Hsys : exists s2,
    err_log_syslog level false (vsnprintf_errbuf expanded) s1 =
      Returned tt s2 /\
    sys_log s2 =
      sys_log s ++
      (if level =? 1 then
         (if err_syslog_open s =? 0 then [Openlog] else []) ++
         [Syslog (if E_DBG <? 1 then LOG_DEBUG else LOG_ALERT)
                 (vsnprintf_errbuf expanded)]
       else []) /\
    handle_valid s2 = true /\
    std_err s2 = std_err s /\ fs_files s2 = fs_files s /\
    err_logdest s2 = err_logdest s /\
    file_written (log_line s2 tid (vsnprintf_errbuf expanded)) s2 =
      file_written (log_line s tid (vsnprintf_errbuf expanded)) s /\
    err_threadlist s2 = tid :: err_threadlist s).
  { destruct (Z.eqb_spec level 1) as [->|Hne].
    - rewrite err_log_syslog_error. eexists. split; [reflexivity|].
      repeat split; try reflexivity. exact Hvalid.
    - rewrite err_log_syslog_quiet by lia. exists s1.
      split; [reflexivity|]. rewrite app_nil_r.
      repeat split; try reflexivity. exact Hvalid. }
  destruct Hsys as (s2 & -> & Hlog & Hvalid2 & Herr & Hfiles & Hdest &
                    Hwritten & Hlist).
  destruct (err_log_sinks_nonfatal tid level (vsnprintf_errbuf expanded) s2)
    as (s3 & Hsinks & Herr3 & Hfiles3 & _ & _ & Hlist3 & Hlog3 & _);
    [lia | exact Hvalid2 |].
  rewrite bind_eq, Hsinks.
  unfold err_log_leave, __err_thread_del, err_log_exit. run_m.
  destruct (Z.eqb_spec level 0); [lia|].
  eexists. split; [reflexivity|].
  cbn [sys_log std_err fs_files err_threadlist set_err_threadlist].
  rewrite Hlog3, Hlog, Herr3, Herr, Hfiles3, Hfiles, Hdest, Hwritten,
    Hlist3, Hlist, thread_del_head.
  repeat split; reflexivity.
Qed.

End Dispatch.

Lemma err_log_dispatch_witness :
  exists s',
    @err_log sample_h 7 1 0 "cannot bind" (set_err_logdest 1 boot) =
      Returned tt s' /\
    sys_log s' = [Openlog; Syslog LOG_ALERT "cannot bind"] /\
    std_err s' = ["cannot bind"] /\
    fs_files s' = ∅ /\
    err_threadlist s' = [].
Proof.
  apply (@err_log_dispatch sample_h 7 1 0 "cannot bind"
           (set_err_logdest 1 boot)).
  - lia.
  - reflexivity.
  - intros [].
  - reflexivity.
  - reflexivity.
Defined.

Section Untouched.

Context `{err_h}.

(** X2: [err_log] is no configuration function: however a call ends, the
    debug level, the destinations, the name and the handle of the log
    file, the category mask and the truncate flag are what they were. *)
Theorem err_log_keeps_configuration (tid level cat : Z) (expanded : string)
    (s : state) :
  match err_log tid level cat expanded s with
  | Returned _ s' | Exited _ s' => configuration s' = configuration s
  | Undefined => True
  end.
Proof.
  revert s.
  change (preserves configuration (err_log tid level cat expanded)).
  unfold err_log, err_log_guard, __err_thread_check, __err_thread_add,
    err_log_syslog, err_log_sinks, err_log_leave, __err_thread_del,
    err_log_exit, lvl2syslog_at, openlog, syslog, fprintf_stderr.
  preserve.
Qed.

(** X3: a message of severity 2 or more never reaches syslog, whatever
    the destinations are: however the call ends, nothing has been sent to
    syslog and no [openlog] has been made or recorded. *)
Theorem err_log_warning_not_in_syslog (tid level cat : Z)
    (expanded : string) (s : state) :
  2 <= level ->
  match err_log tid level cat expanded s with
  | Returned _ s' | Exited _ s' =>
      sys_log s' = sys_log s /\ err_syslog_open s' = err_syslog_open s
  | Undefined => True
  end.
Proof.
  intros Hlevel.
  assert (Hkeep : preserves (fun s => (sys_log s, err_syslog_open s))
                    (err_log tid level cat expanded)).
  { assert (Hquiet : (level <=? 1) = false) by (apply Z.leb_gt; lia).
    unfold err_log, err_log_guard, __err_thread_check, __err_thread_add,
      err_log_syslog, err_log_sinks, err_log_leave, __err_thread_del,
      err_log_exit, fprintf_stderr.
    rewrite Hquiet. preserve. }
  specialize (Hkeep s).
  destruct (err_log tid level cat expanded s) as [[] s'|c s'|];
    [| |exact I]; injection Hkeep as -> ->; auto.
Qed.

(** X4: a negative severity is no index of [lvl2syslog]: such a message
    passes the filter like an error, and once the thread is registered the
    call reads the priority table before its first entry. *)
Theorem err_log_negative_severity (tid level cat : Z) (expanded : string)
    (s : state) :
  level < 0 ->
  level <= E_DBG ->
  ~ In tid (err_threadlist s) ->
  allocations_served 1 s = true ->
  err_log_filter level cat s = true /\
  err_log tid level cat expanded s = Undefined.
Proof.
  intros Hneg Hdbg Hnotin Halloc. rewrite allocations_served_1 in Halloc.
  assert (Hpass : err_log_filter level cat s = true).
  { unfold err_log_filter. destruct (Z.ltb_spec 1 level); [lia | reflexivity]. }
  split; [exact Hpass|].
  assert (Hcheck : thread_check tid (err_threadlist s) = false).
  { destruct (thread_check tid (err_threadlist s)) eqn:E; [|reflexivity].
    apply thread_check_In in E. contradiction. }
  rewrite err_log_eq, Hpass, err_log_guard_eq. cbv zeta.
  rewrite Hcheck, Halloc. cbn [andb]. rewrite bind_eq.
  unfold err_log_syslog, lvl2syslog_at, openlog. run_m.
  destruct (Z.leb_spec level 1); [|lia].
  destruct (Z.ltb_spec E_DBG level); [lia|].
  destruct (Z.ltb_spec level 0); [|lia].
  destruct (err_syslog_open _ =? 0); reflexivity.
Qed.

End Untouched.

Lemma err_log_warning_not_in_syslog_witness :
  exists s',
    @err_log sample_h 7 2 1 "no artwork" (set_err_debuglevel 5 boot) =
      Returned tt s' /\
    sys_log s' = [] /\ err_syslog_open s' = 0.
Proof.
  pose proof (@err_log_warning_not_in_syslog sample_h 7 2 1 "no artwork"
                (set_err_debuglevel 5 boot)) as Hquiet.
  destruct (@err_log sample_h 7 2 1 "no artwork" (set_err_debuglevel 5 boot))
    as [[] s'|c s'|] eqn:Hrun;
    [|vm_compute in Hrun; discriminate Hrun
     |vm_compute in Hrun; discriminate Hrun].
  exists s'. split; [reflexivity|]. apply Hquiet. lia.
Defined.

Lemma err_log_negative_severity_witness :
  @err_log sample_h 7 (-1) 0 "bad level" boot = Undefined.
Proof.
  apply (@err_log_negative_severity sample_h 7 (-1) 0 "bad level" boot).
  - lia.
  - vm_compute. discriminate.
  - intros [].
  - reflexivity.
Defined.

(** ** The thread list, node by node *)

Section ThreadList.

Context `{err_h}.

Lemma thread_del_absent (tid : Z) (l : list Z) :
  ~ In tid l -> thread_del tid l = l.
Proof.
  induction l as [|x l IH]; [reflexivity|]. intros Hnotin. simpl.
  destruct (Z.eqb_spec x tid) as [->|Hne]; [exfalso; apply Hnotin; now left|].
  f_equal. apply IH. intros Hin. apply Hnotin. now right.
Qed.

Lemma thread_del_others (tid : Z) (l : list Z) :
  List.filter (fun x => negb (x =? tid)) (thread_del tid l) =
  List.filter (fun x => negb (x =? tid)) l.
Proof.
  induction l as [|x l IH]; [reflexivity|]. simpl.
  destruct (Z.eqb_spec x tid) as [->|Hne]; simpl; [reflexivity|].
  destruct (Z.eqb_spec x tid); [contradiction|]. simpl. now rewrite IH.
Qed.

(** X6: a node just linked by [__err_thread_add] is found by
    [__err_thread_check], and it is the node that [__err_thread_del] then
    unlinks: the list is again what it was, also when the thread had
    nodes on it before.  When the node cannot be allocated, the process
    ends with status 255 and the list as it was. *)
Theorem err_thread_add_check_del (tid : Z) (s : state) :
  (allocations_served 1 s = true ->
   exists s1 s2,
     __err_thread_add tid s = Returned tt s1 /\
     __err_thread_check tid s1 = Returned true s1 /\
     __err_thread_del tid s1 = Returned tt s2 /\
     err_threadlist s2 = err_threadlist s) /\
  (allocations_served 1 s = false ->
   exists s1,
     __err_thread_add tid s = Exited 255 s1 /\
     err_threadlist s1 = err_threadlist s).
Proof.
  rewrite allocations_served_1.
  unfold __err_thread_add, __err_thread_check, __err_thread_del, malloc,
    fprintf_stderr, exit.
  run_m. split; intros ->; cbn [negb]; cbv beta iota.
  - do 2 eexists. split; [reflexivity|].
    cbn [err_threadlist set_err_threadlist thread_check thread_del].
    rewrite Z.eqb_refl. auto.
  - eexists. split; reflexivity.
Qed.

End ThreadList.

Lemma err_thread_add_check_del_witness :
  (exists s1 s2,
     __err_thread_add 7 busy = Returned tt s1 /\
     __err_thread_check 7 s1 = Returned true s1 /\
     __err_thread_del 7 s1 = Returned tt s2 /\
     err_threadlist s2 = [7]) /\
  (exists s1,
     __err_thread_add 7 (set_heap [false] busy) = Exited 255 s1 /\
     err_threadlist s1 = [7]).
Proof.
  split.
  - apply (proj1 (err_thread_add_check_del 7 busy)). reflexivity.
  - apply (proj2 (err_thread_add_check_del 7 (set_heap [false] busy))).
    reflexivity.
Defined.

(** ** The log file, operation by operation *)

Section LogFileMore.

Context `{err_h}.

Lemma log_open_stream (s : state) :
  log_open s = true ->
  exists f path, err_file s = Some f /\ fs_streams s !! f = Some path.
Proof.
  unfold log_open. destruct (err_file s) as [f|]; [|discriminate].
  intros Hopen. apply bool_decide_eq_true in Hopen as [path Hpath]. eauto.
Qed.

Lemma log_open_false (s : state) (f : FILE) :
  log_open s = false -> err_file s = Some f -> fs_streams s !! f = None.
Proof.
  unfold log_open. intros Hopen Hfile. rewrite Hfile in Hopen.
  apply bool_decide_eq_false in Hopen.
  destruct (fs_streams s !! f) eqn:E; [|reflexivity].
  exfalso. apply Hopen. eauto.
Qed.

(** [err_setlogfile] on a name that can be opened, in full. *)
Lemma err_setlogfile_success (file : string) (s : state) :
  handle_valid s = true ->
  truncate_to PATH_MAX file ∉ fs_denied s ->
  err_setlogfile file s =
  Returned TRUE
    (set_err_file (Some (fs_next s))
       (set_err_filename (truncate_to PATH_MAX file)
          (set_fs
             (<[truncate_to PATH_MAX file :=
                  if err_truncate s =? 0
                  then default [] (fs_files s !! truncate_to PATH_MAX file)
                  else []]> (fs_files s))
             (<[fs_next s := truncate_to PATH_MAX file]> (log_closed s))
             (S (fs_next s)) s))).
Proof.
  intros Hvalid Hopen.
  unfold err_setlogfile, log_closed. run_m.
  destruct (err_file s) as [f|] eqn:Ef.
  - destruct (handle_valid_open s f Hvalid Ef) as [path Hpath].
    rewrite bool_decide_eq_true_2 by discriminate.
    unfold fclose. rewrite Hpath. cbv beta iota.
    unfold fopen. cbn [fs_denied set_fs set_err_filename err_filename].
    rewrite decide_False by exact Hopen.
    cbn [err_truncate set_fs]. destruct (err_truncate s =? 0); reflexivity.
  - rewrite bool_decide_eq_false_2 by (intros E; now apply E).
    cbv beta iota.
    unfold fopen. cbn [fs_denied set_fs set_err_filename err_filename].
    rewrite decide_False by exact Hopen.
    cbn [err_truncate set_fs]. destruct (err_truncate s =? 0); reflexivity.
Qed.

(** [err_setlogfile] on a name that cannot be opened, in full. *)
Lemma err_setlogfile_failure (file : string) (s : state) :
  handle_valid s = true ->
  truncate_to PATH_MAX file ∈ fs_denied s ->
  err_setlogfile file s =
  Returned FALSE
    (set_sys_log
       (sys_log s ++ (if err_syslog_open s =? 0 then [Openlog] else []) ++
        [Syslog LOG_ALERT "Error opening logfile"])
       (set_err_logdest (Z.land (err_logdest s) (Z.lnot LOGDEST_LOGFILE))
          (set_std_err
             (std_err s ++ ["Error opening logfile: " +:+ errno_text s])
             (set_err_file None
                (set_err_filename (truncate_to PATH_MAX file)
                   (set_fs (fs_files s) (log_closed s) (fs_next s) s)))))).
Proof.
  intros Hvalid Hdenied.
  unfold err_setlogfile, lvl2syslog_at, openlog, syslog, fprintf_stderr,
    log_closed.
  run_m.
  destruct (err_file s) as [f|] eqn:Ef.
  - destruct (handle_valid_open s f Hvalid Ef) as [path Hpath].
    rewrite bool_decide_eq_true_2 by discriminate.
    unfold fclose. rewrite Hpath. cbv beta iota.
    unfold fopen. cbn [fs_denied set_fs set_err_filename err_filename].
    rewrite decide_True by exact Hdenied.
    simpl (err_syslog_open _).
    destruct (err_syslog_open s =? 0); cbv beta iota; simpl;
      rewrite <- ?app_assoc; reflexivity.
  - rewrite bool_decide_eq_false_2 by (intros E; now apply E).
    cbv beta iota.
    unfold fopen. cbn [fs_denied set_fs set_err_filename err_filename].
    rewrite decide_True by exact Hdenied.
    simpl (err_syslog_open _).
    destruct (err_syslog_open s =? 0); cbv beta iota; simpl;
      rewrite <- ?app_assoc; reflexivity.
Qed.



(** X9: setting the truncate flag to a new value other than 0 while a
    log file is open reopens that file on the spot, emptied; the call
    returns [TRUE] with the new flag and a handle that is open. *)
Theorem err_settruncate_empties (truncate : Z) (s : state) :
  truncate <> err_truncate s ->
  truncate <> 0 ->
  log_open s = true ->
  truncate_to PATH_MAX (err_filename s) ∉ fs_denied s ->
  exists s',
    err_settruncate truncate s = Returned TRUE s' /\
    err_truncate s' = truncate /\
    fs_files s' !! truncate_to PATH_MAX (err_filename s) = Some [] /\
    log_open s' = true.
Proof.
  intros Hnew Hset Hopen Hallowed.
  destruct (log_open_stream s Hopen) as (f & path & Hfile & Hpath).
  assert (Hvalid : handle_valid s = true).
  { unfold handle_valid. rewrite Hfile. apply bool_decide_eq_true_2. eauto. }
  unfold err_settruncate. run_m.
  destruct (Z.eqb_spec (err_truncate s) truncate); [congruence|].
  destruct (Z.eqb_spec truncate 0); [contradiction|].
  cbn [err_file set_err_truncate]. rewrite Hfile.
  rewrite bool_decide_eq_true_2 by discriminate. cbn [negb andb].
  unfold malloc. cbv beta iota.
  cbn [err_filename set_heap set_err_truncate].
  match goal with
  | |- context [err_setlogfile ?file ?s1] =>
      rewrite (err_setlogfile_success file s1 Hvalid Hallowed)
  end.
  eexists. split; [reflexivity|].
  cbn [err_truncate set_err_truncate set_heap set_err_file set_err_filename
       set_fs fs_files].
  destruct (Z.eqb_spec truncate 0); [contradiction|].
  split; [reflexivity|]. split; [apply lookup_insert_eq|].
  unfold log_open. cbn. rewrite lookup_insert_eq.
  apply bool_decide_eq_true_2. eauto.
Qed.

(** X10: a new value of the truncate flag that is 0, or that comes while
    no log file is open, changes the flag and nothing else: the log file
    is not reopened. *)
Theorem err_settruncate_flag_only (truncate : Z) (s : state) :
  truncate <> err_truncate s ->
  truncate = 0 \/ err_file s = None ->
  err_settruncate truncate s = Returned TRUE (set_err_truncate truncate s).
Proof.
  intros Hnew Hcase. unfold err_settruncate. run_m.
  destruct (Z.eqb_spec (err_truncate s) truncate); [congruence|].
  cbn [err_file set_err_truncate].
  destruct Hcase as [-> | ->]; [reflexivity|].
  rewrite bool_decide_eq_false_2 by (intros E; now apply E).
  rewrite andb_false_r. reflexivity.
Qed.

(** X11: [err_settruncate] returns [TRUE] also when the reopening it
    triggers fails: the flag is set, the log handle is then [NULL], the
    file is no longer among the destinations, and the failure has gone to
    standard error. *)
Theorem err_settruncate_hides_failure (truncate : Z) (s : state) :
  truncate <> err_truncate s ->
  truncate <> 0 ->
  log_open s = true ->
  truncate_to PATH_MAX (err_filename s) ∈ fs_denied s ->
  exists s',
    err_settruncate truncate s = Returned TRUE s' /\
    err_truncate s' = truncate /\
    err_file s' = None /\
    Z.land (err_logdest s') LOGDEST_LOGFILE = 0 /\
    std_err s' = std_err s ++ ["Error opening logfile: " +:+ errno_text s].
Proof.
  intros Hnew Hset Hopen Hdenied.
  destruct (log_open_stream s Hopen) as (f & path & Hfile & Hpath).
  assert (Hvalid : handle_valid s = true).
  { unfold handle_valid. rewrite Hfile. apply bool_decide_eq_true_2. eauto. }
  unfold err_settruncate. run_m.
  destruct (Z.eqb_spec (err_truncate s) truncate); [congruence|].
  destruct (Z.eqb_spec truncate 0); [contradiction|].
  cbn [err_file set_err_truncate]. rewrite Hfile.
  rewrite bool_decide_eq_true_2 by discriminate. cbn [negb andb].
  unfold malloc. cbv beta iota.
  cbn [err_filename set_heap set_err_truncate].
  match goal with
  | |- context [err_setlogfile ?file ?s1] =>
      rewrite (err_setlogfile_failure file s1 Hvalid Hdenied)
  end.
  eexists. split; [reflexivity|]. cbn.
  repeat split. apply land_clear_bit.
Qed.

(** X12: the branch of [err_reopen] for a failed reopening never gets to
    its message: with the file among the destinations, [err_reopen] on a
    name that cannot be opened, or with a log handle that is not an open
    stream, passes to [fclose] what is no open stream. *)
Theorem err_reopen_failure_undefined (tid : Z) (s : state) :
  Z.land (err_logdest s) LOGDEST_LOGFILE <> 0 ->
  err_filename s ∈ fs_denied s \/ log_open s = false ->
  err_reopen tid s = Undefined.
Proof.
  intros Hon Hcase. unfold err_reopen. run_m.
  destruct (Z.eqb_spec (Z.land (err_logdest s) LOGDEST_LOGFILE) 0);
    [contradiction|].
  unfold fclose at 1.
  destruct (err_file s) as [f|] eqn:Hfile; [|reflexivity].
  destruct (fs_streams s !! f) as [path|] eqn:Hpath; [|reflexivity].
  destruct Hcase as [Hdenied|Hclosed].
  2:{ rewrite (log_open_false s f Hclosed Hfile) in Hpath. discriminate. }
  cbv beta iota. unfold fopen. cbn [fs_denied err_filename set_fs].
  rewrite decide_True by exact Hdenied. cbv beta iota.
  unfold err_setdest at 1. run_m. cbn [err_logdest set_err_file set_fs].
  rewrite land_clear_bit. change (0 =? 0) with true.
  destruct (Z.eqb_spec (err_logdest s)
              (Z.land (err_logdest s) (Z.lnot LOGDEST_LOGFILE))) as [E|_].
  { exfalso. apply Hon. rewrite E. apply land_clear_bit. }
  destruct (Z.eqb_spec (Z.land (err_logdest s) LOGDEST_LOGFILE) 0);
    [contradiction|].
  reflexivity.
Qed.

(** X14: [err_setdest] taking the file destination away trusts that a log
    file is open: when [err_file] is [NULL] or names a stream that has
    been closed, the call passes it to [fclose] all the same. *)
Theorem err_setdest_without_log (destination : Z) (s : state) :
  Z.land (err_logdest s) LOGDEST_LOGFILE <> 0 ->
  Z.land destination LOGDEST_LOGFILE = 0 ->
  log_open s = false ->
  err_setdest destination s = Undefined.
Proof.
  intros Hon Hoff Hclosed. unfold err_setdest. run_m.
  destruct (Z.eqb_spec (err_logdest s) destination) as [E|_];
    [rewrite E in Hon; contradiction|].
  rewrite Hoff. change (0 =? 0) with true.
  destruct (Z.eqb_spec (Z.land (err_logdest s) LOGDEST_LOGFILE) 0);
    [contradiction|].
  cbn [negb andb]. unfold fclose.
  destruct (err_file s) as [f|] eqn:Hfile; [|reflexivity].
  rewrite (log_open_false s f Hclosed Hfile). reflexivity.
Qed.

End LogFileMore.

Lemma log_path_locked : truncate_to PATH_MAX log_path ∈ ({[ log_path ]} : gset string).
Proof. apply elem_of_singleton_2. reflexivity. Qed.

Lemma log_path_free : truncate_to PATH_MAX log_path ∉ (∅ : gset string).
Proof. apply not_elem_of_empty. Qed.



Lemma err_settruncate_empties_witness :
  exists s',
    @err_settruncate sample_h 1 logging = Returned 1 s' /\
    err_truncate s' = 1 /\
    fs_files s' !! log_path = Some [] /\
    log_open s' = true.
Proof.
  apply (@err_settruncate_empties sample_h 1 logging).
  - discriminate.
  - discriminate.
  - reflexivity.
  - exact log_path_free.
Defined.

Lemma err_settruncate_flag_only_witness :
  @err_settruncate sample_h 1 boot = Returned 1 (set_err_truncate 1 boot).
Proof.
  apply (@err_settruncate_flag_only sample_h 1 boot).
  - discriminate.
  - right. reflexivity.
Defined.

Lemma err_settruncate_hides_failure_witness :
  exists s',
    @err_settruncate sample_h 1 logging_locked = Returned 1 s' /\
    err_truncate s' = 1 /\
    err_file s' = None /\
    Z.land (err_logdest s') 4 = 0 /\
    std_err s' = ["Error opening logfile: Permission denied"].
Proof.
  apply (@err_settruncate_hides_failure sample_h 1 logging_locked).
  - discriminate.
  - discriminate.
  - reflexivity.
  - exact log_path_locked.
Defined.

Lemma err_reopen_failure_undefined_witness :
  @err_reopen sample_h 7 logging_locked = Undefined.
Proof.
  apply (@err_reopen_failure_undefined sample_h 7 logging_locked).
  - discriminate.
  - left. exact log_path_locked.
Defined.

Lemma err_setdest_without_log_witness :
  @err_setdest sample_h 0 (set_err_logdest 4 boot) = Undefined.
Proof.
  apply (@err_setdest_without_log sample_h 0 (set_err_logdest 4 boot)).
  - discriminate.
  - reflexivity.
  - reflexivity.
Defined.

(** ** The category names *)

Section Names.

Lemma tolower_zero (c : Z) : tolower c = 0 <-> c = 0.
Proof.
  unfold tolower.
  destruct (Z.leb_spec 65 c); destruct (Z.leb_spec c 90); simpl; lia.
Qed.

Lemma strcasecmp_lower (a b : string) :
  nul_free a -> nul_free b ->
  (strcasecmp a b = 0 <-> lower a = lower b).
Proof.
  unfold nul_free, lower. revert b.
  induction a as [|c a IH]; intros [|d b] Ha Hb; simpl in *.
  - tauto.
  - inversion_clear Hb as [|? ? Hd _].
    split; [|discriminate]. intros E. exfalso. apply Hd.
    apply tolower_zero. lia.
  - inversion_clear Ha as [|? ? Hc _].
    split; [|discriminate]. intros E. exfalso. apply Hc.
    now apply tolower_zero.
  - inversion_clear Ha as [|? ? _ Ha']. inversion_clear Hb as [|? ? _ Hb'].
    destruct (Z.eqb_spec (tolower (char_code c)) (tolower (char_code d)))
      as [E|Hne].
    + rewrite (IH b Ha' Hb'). rewrite E. split; [congruence|].
      intros [= ?]. assumption.
    + split; [lia|]. intros [= ? _]. contradiction.
Qed.

(** X15: [strcasecmp] answers 0 exactly for strings that agree once every
    capital letter from A to Z is replaced by its small letter. *)
Theorem strcasecmp_zero (a b : string) :
  nul_free a -> nul_free b ->
  (strcasecmp a b = 0 <-> lower a = lower b).
Proof. exact (strcasecmp_lower a b). Qed.

Lemma rack_shifted_power (j : nat) :
  (j < 32)%nat -> rack_shifted j 1 = 2 ^ Z.of_nat j.
Proof.
  unfold rack_shifted. induction j as [|j IH]; intros Hj; [reflexivity|].
  rewrite Nat.iter_succ, IH by lia.
  rewrite Z.shiftl_mul_pow2 by lia.
  rewrite Nat2Z.inj_succ, Z.pow_succ_r by lia.
  rewrite Z.mod_small; [lia|].
  split; [lia|].
  assert (2 ^ Z.of_nat j < 2 ^ 31) by (apply Z.pow_lt_mono_r; lia).
  change (2 ^ 32) with (2 * 2 ^ 31). lia.
Qed.

(** The walk over the names stops at the first name that [strcasecmp]
    finds equal to the token, with the rack shifted once per name passed. *)
Lemma category_rack_first (categories : list string) (token : string)
    (j : nat) (name : string) :
  categories !! j = Some name ->
  strcasecmp name token = 0 ->
  (forall k other, (k < j)%nat -> categories !! k = Some other ->
                   strcasecmp other token <> 0) ->
  forall rack,
    category_rack categories token rack = Some (rack_shifted j rack).
Proof.
  revert j. induction categories as [|first rest IH];
    intros j Hname Hmatch Hearlier rack; [discriminate|].
  destruct j as [|j]; cbn [category_rack].
  - injection Hname as ->. rewrite Hmatch. reflexivity.
  - destruct (Z.eqb_spec (strcasecmp first token) 0) as [E|_].
    { exfalso. exact (Hearlier O first ltac:(lia) eq_refl E). }
    rewrite (IH j Hname Hmatch).
    + unfold rack_shifted. now rewrite Nat.iter_succ_r.
    + intros k other Hk Hother.
      apply (Hearlier (S k) other); [lia | exact Hother].
Qed.

Lemma category_rack_none (categories : list string) (token : string)
    (rack : Z) :
  category_rack categories token rack = None <->
  Forall (fun name => strcasecmp name token <> 0) categories.
Proof.
  revert rack. induction categories as [|first rest IH]; intros rack;
    cbn [category_rack].
  - split; [constructor | reflexivity].
  - destruct (Z.eqb_spec (strcasecmp first token) 0) as [E|Hne].
    + split; [discriminate|]. intros Hall. inversion Hall. contradiction.
    + rewrite IH. split; [now constructor | now inversion 1].
Qed.

Lemma category_rack_some (categories : list string) (token : string)
    (rack result : Z) :
  category_rack categories token rack = Some result ->
  exists j, (j < length categories)%nat /\ result = rack_shifted j rack.
Proof.
  revert rack. induction categories as [|first rest IH]; intros rack;
    cbn [category_rack]; [discriminate|].
  destruct (strcasecmp first token =? 0).
  - intros [= <-]. exists O. split; [simpl; lia | reflexivity].
  - intros Hrest. destruct (IH _ Hrest) as (j & Hj & ->).
    exists (S j). split; [simpl; lia|].
    unfold rack_shifted. now rewrite Nat.iter_succ_r.
Qed.

Lemma err_categorylist_nul_free : Forall nul_free err_categorylist.
Proof.
  unfold err_categorylist, nul_free.
  repeat (constructor;
          [cbn [list_ascii_of_string];
           repeat (constructor; [intros E; vm_compute in E; discriminate E|]);
           constructor|]).
  constructor.
Qed.

Lemma err_categorylist_distinct : NoDup (lower <$> err_categorylist).
Proof.
  refine (bool_decide_unpack (NoDup (lower <$> err_categorylist)) _).
  vm_compute. exact I.
Qed.

(** X16: the bit of a category is its place in [err_categorylist], and the
    name may come in any mix of capital and small letters: a token that
    agrees with the name at place [i] up to the case of its letters gets
    the rack [2 ^ i]. *)
Theorem category_rack_place (i : nat) (name token : string) :
  err_categorylist !! i = Some name ->
  nul_free token ->
  lower token = lower name ->
  category_rack err_categorylist token 1 = Some (2 ^ Z.of_nat i).
Proof.
  intros Hname Hfree Hsame.
  assert (Hname_free : nul_free name).
  { apply (proj1 (Forall_forall _ _) err_categorylist_nul_free).
    eapply list_elem_of_lookup_2. exact Hname. }
  rewrite <- rack_shifted_power.
  2:{ apply lookup_lt_Some in Hname. simpl in Hname. lia. }
  apply (category_rack_first err_categorylist token i name Hname).
  - apply strcasecmp_lower; auto.
  - intros k other Hk Hother Hmatch.
    assert (Hother_free : nul_free other).
    { apply (proj1 (Forall_forall _ _) err_categorylist_nul_free).
      eapply list_elem_of_lookup_2. exact Hother. }
    apply strcasecmp_lower in Hmatch; [|assumption|assumption].
    assert (k = i); [|lia].
    apply (NoDup_lookup (lower <$> err_categorylist) k i (lower token)
             err_categorylist_distinct).
    + rewrite list_lookup_fmap, Hother. simpl. now rewrite Hmatch.
    + rewrite list_lookup_fmap, Hname. simpl. now rewrite Hsame.
Qed.

(** X17: a token names no category exactly when it agrees with none of
    the names of [err_categorylist] up to the case of its letters. *)
Theorem category_rack_unknown (token : string) :
  nul_free token ->
  (category_rack err_categorylist token 1 = None <->
   lower token ∉ lower <$> err_categorylist).
Proof.
  intros Hfree. rewrite category_rack_none, Forall_forall. split.
  - intros Hnone Hin. apply list_elem_of_fmap in Hin as (name & Hsame & Hname).
    apply (Hnone name Hname). apply strcasecmp_lower; auto.
    apply (proj1 (Forall_forall _ _) err_categorylist_nul_free name Hname).
  - intros Hnotin name Hname Hmatch. apply Hnotin.
    apply list_elem_of_fmap. exists name. split.
    + symmetry. apply strcasecmp_lower; auto.
      apply (proj1 (Forall_forall _ _) err_categorylist_nul_free name Hname).
    + exact Hname.
Qed.

End Names.

Lemma nul_free_sample (a : string) :
  forallb (fun c => negb (char_code c =? 0)) (list_ascii_of_string a) = true ->
  nul_free a.
Proof.
  unfold nul_free. induction (list_ascii_of_string a) as [|c l IH]; simpl;
    [constructor|].
  intros Hall. apply andb_prop in Hall as [Hc Hl].
  constructor; [|exact (IH Hl)].
  destruct (Z.eqb_spec (char_code c) 0); [discriminate | assumption].
Qed.

Lemma strcasecmp_zero_witness :
  strcasecmp "WebServer" "webserver" = 0 <->
  lower "WebServer" = lower "webserver".
Proof.
  apply strcasecmp_zero; apply nul_free_sample; reflexivity.
Defined.

Lemma category_rack_place_witness :
  category_rack err_categorylist "DataBase" 1 = Some 4.
Proof.
  apply (category_rack_place 2 "database" "DataBase").
  - reflexivity.
  - apply nul_free_sample. reflexivity.
  - reflexivity.
Defined.

Lemma category_rack_unknown_witness :
  category_rack err_categorylist "bogus" 1 = None <->
  lower "bogus" ∉ lower <$> err_categorylist.
Proof.
  apply category_rack_unknown. apply nul_free_sample. reflexivity.
Defined.

(** ** The list of names *)

Section Tokens.

Lemma append_cons (c : ascii) (a b : string) :
  String c a +:+ b = String c (a +:+ b).
Proof. reflexivity. Qed.

Lemma append_nil_r (a : string) : a +:+ EmptyString = a.
Proof.
  induction a as [|c a IH]; [reflexivity|]. now rewrite append_cons, IH.
Qed.

Lemma append_snoc (a : string) (c : ascii) (b : string) :
  (a +:+ String c EmptyString) +:+ b = a +:+ String c b.
Proof.
  induction a as [|d a IH]; [reflexivity|]. now rewrite !append_cons, IH.
Qed.

Lemma chars_append (a b : string) :
  list_ascii_of_string (a +:+ b) =
  list_ascii_of_string a ++ list_ascii_of_string b.
Proof.
  induction a as [|c a IH]; [reflexivity|].
  rewrite append_cons. cbn [list_ascii_of_string app]. now rewrite IH.
Qed.

Lemma is_token_snoc (delim : ascii) (token : string) (c : ascii) :
  token = EmptyString \/ is_token delim token ->
  c <> delim ->
  is_token delim (token +:+ String c EmptyString).
Proof.
  intros Htoken Hc. split.
  - destruct token; discriminate.
  - rewrite chars_append. simpl. intros Hin.
    apply in_app_or in Hin as [Hin|[E|[]]]; [|congruence].
    destruct Htoken as [-> | [_ Hfree]]; [destruct Hin | exact (Hfree Hin)].
Qed.

(** Whatever comes out of the token loop is a token. *)
Lemma strtok_all_tokens (delim : ascii) (str token : string) :
  token = EmptyString \/ is_token delim token ->
  Forall (is_token delim) (strtok_all delim token str).
Proof.
  revert token. induction str as [|c str IH]; intros token Htoken;
    cbn [strtok_all].
  - destruct token; [constructor|].
    destruct Htoken as [E|Htoken]; [discriminate | repeat constructor].
    + discriminate.
    + apply Htoken.
  - destruct (Ascii.eqb_spec c delim) as [->|Hc].
    + destruct token.
      * apply IH. now left.
      * destruct Htoken as [E|Htoken]; [discriminate|].
        constructor; [exact Htoken | apply IH; now left].
    + apply IH. right. now apply is_token_snoc.
Qed.

(** A stretch without the delimiter goes into the token as a whole. *)
Lemma strtok_all_run (delim : ascii) (run rest token : string) :
  ~ In delim (list_ascii_of_string run) ->
  strtok_all delim token (run +:+ rest) =
  strtok_all delim (token +:+ run) rest.
Proof.
  revert token. induction run as [|c run IH]; intros token Hfree.
  - now rewrite append_nil_r.
  - rewrite append_cons. cbn [strtok_all].
    destruct (Ascii.eqb_spec c delim) as [->|Hc];
      [exfalso; apply Hfree; now left|].
    rewrite IH by (intros Hin; apply Hfree; now right).
    now rewrite append_snoc.
Qed.

Lemma strtok_all_join (delim : ascii) (tokens : list string) :
  Forall (is_token delim) tokens ->
  strtok_all delim EmptyString (join delim tokens) = tokens.
Proof.
  induction 1 as [|t rest [Hnonempty Hfree] Hrest IH]; [reflexivity|].
  destruct rest as [|t2 rest].
  - cbn [join]. rewrite <- (append_nil_r t) at 1.
    rewrite strtok_all_run by exact Hfree.
    change (EmptyString +:+ t) with t. cbn [strtok_all].
    destruct t; [contradiction | reflexivity].
  - change (join delim (t :: t2 :: rest))
      with (t +:+ String delim (join delim (t2 :: rest))).
    rewrite strtok_all_run by exact Hfree.
    change (EmptyString +:+ t) with t. cbn [strtok_all].
    rewrite Ascii.eqb_refl, IH.
    destruct t; [contradiction | reflexivity].
Qed.

(** X18: the loop of [err_setdebugmask] over [strtok_r] sees the names of
    the list one by one: every token it gets is non-empty and free of
    commas, whatever the list, and a list that was written by putting
    commas between such tokens gives back those tokens, in their order. *)
Theorem strtok_all_round_trip (names : string) (tokens : list string) :
  Forall (is_token ",") (strtok_all "," EmptyString names) /\
  (Forall (is_token ",") tokens ->
   strtok_all "," EmptyString (join "," tokens) = tokens).
Proof.
  split.
  - apply strtok_all_tokens. now left.
  - apply strtok_all_join.
Qed.

End Tokens.

Lemma strtok_all_round_trip_witness :
  Forall (is_token ",") [ "scan"; "Art" ]%string /\
  strtok_all "," EmptyString (join "," [ "scan"; "Art" ]%string) =
    [ "scan"; "Art" ]%string /\
  strtok_all "," EmptyString ",scan,,Art," = [ "scan"; "Art" ]%string.
Proof.
  assert (Htokens : Forall (is_token ",") [ "scan"; "Art" ]%string).
  { repeat constructor; try discriminate;
      (intros Hin; vm_compute in Hin; intuition discriminate). }
  split; [exact Htokens|]. split.
  - apply (proj2 (strtok_all_round_trip EmptyString _) Htokens).
  - reflexivity.
Defined.

(** ** The category mask, bit by bit *)

Section MaskBits.

Context `{err_h}.

(** [err_setdebugmask] on a list of known names, in full. *)
Lemma err_setdebugmask_success (tid : Z) (names : string) (s : state) :
  Forall (fun token => category_rack err_categorylist token 1 <> None)
         (strtok_all "," EmptyString names) ->
  1 <= E_INF ->
  handle_valid s = true ->
  allocations_served 2 s = true ->
  exists s',
    err_setdebugmask tid names s = Returned 0 s' /\
    err_debugmask s' =
      mask_after (strtok_all "," EmptyString names) 0x80000000.
Proof.
  intros Hknown Hlevel Hvalid Halloc.
  assert (Hfirst : hd true (heap s) = true /\
                   allocations_served 1 (set_heap (tl (heap s)) s) = true).
  { revert Halloc. unfold allocations_served.
    destruct (heap s) as [|[] [|[] more]]; cbn; auto. }
  destruct Hfirst as [Hstrdup Hnode].
  unfold err_setdebugmask. rewrite bind_eq. unfold modify at 1.
  cbv beta iota. rewrite bind_eq. unfold malloc at 1.
  cbn [heap set_err_debugmask]. rewrite Hstrdup. cbn [negb].
  change (set_heap (tl (heap s)) (set_err_debugmask 2147483648 s))
    with (set_err_debugmask 2147483648 (set_heap (tl (heap s)) s)).
  pose proof (err_setdebugmask_loop_known tid _ [] Hknown 2147483648
                (set_heap (tl (heap s)) s)) as Hloop.
  rewrite app_nil_r in Hloop. rewrite Hloop. clear Hloop.
  cbn [err_setdebugmask_loop]. rewrite bind_eq. unfold gets at 1.
  cbn [err_debugmask set_err_debugmask]. rewrite bind_eq.
  set (s1 := set_err_debugmask _ _).
  set (text := "Debug mask is 0x" +:+ _).
  pose proof (err_log_debugmask tid E_INF L_MISC text s1) as Hmask.
  destruct (err_log_returns tid E_INF L_MISC text s1 Hlevel Hvalid Hnode)
    as [s2 Hlog].
  unfold DPRINTF. rewrite Hlog in Hmask |- *.
  exists s2. split; [reflexivity | exact Hmask].
Qed.

(** The bits of the mask after known tokens. *)
Lemma mask_after_testbit (tokens : list string) (mask i : Z) :
  Forall (fun token => category_rack err_categorylist token 1 <> None)
         tokens ->
  Z.testbit (mask_after tokens mask) i =
  Z.testbit mask i ||
  existsb (fun token =>
             match category_rack err_categorylist token 1 with
             | Some rack => Z.testbit rack i
             | None => false
             end) tokens.
Proof.
  intros Hknown. revert mask.
  induction Hknown as [|token tokens Htoken _ IH]; intros mask;
    cbn [mask_after existsb]; [now rewrite orb_false_r|].
  destruct (category_rack err_categorylist token 1) as [rack|];
    [|contradiction].
  rewrite IH, Z.lor_spec. now rewrite orb_assoc.
Qed.

Lemma existsb_same_elements {A} (f : A -> bool) (l1 l2 : list A) :
  (forall x, In x l1 <-> In x l2) -> existsb f l1 = existsb f l2.
Proof.
  intros Hsame. apply eq_true_iff_eq. rewrite !existsb_exists.
  split; intros (x & Hin & Hx); exists x; (split; [now apply Hsame | exact Hx]).
Qed.

Lemma mask_after_same_elements (tokens1 tokens2 : list string) (mask : Z) :
  Forall (fun token => category_rack err_categorylist token 1 <> None)
         tokens1 ->
  Forall (fun token => category_rack err_categorylist token 1 <> None)
         tokens2 ->
  (forall token, In token tokens1 <-> In token tokens2) ->
  mask_after tokens1 mask = mask_after tokens2 mask.
Proof.
  intros Hknown1 Hknown2 Hsame. apply Z.bits_inj. intros i.
  rewrite !mask_after_testbit by assumption.
  now rewrite (existsb_same_elements _ tokens1 tokens2 Hsame).
Qed.

(** X19: on a list in which every token names a category,
    [err_setdebugmask] returns 0 (after the "Debug mask is" message, which
    goes through [err_log] at severity [E_INF]), and the mask is the
    always-on bit with the bits of the tokens or-ed in. *)
Theorem err_setdebugmask_known (tid : Z) (names : string) (s : state) :
  Forall (fun token => category_rack err_categorylist token 1 <> None)
         (strtok_all "," EmptyString names) ->
  1 <= E_INF ->
  handle_valid s = true ->
  allocations_served 2 s = true ->
  exists s',
    err_setdebugmask tid names s = Returned 0 s' /\
    err_debugmask s' =
      mask_after (strtok_all "," EmptyString names) 0x80000000.
Proof. exact (err_setdebugmask_success tid names s). Qed.

(** X20: after [err_setdebugmask] has accepted a list, bit 31 of the mask
    is set, and any other bit is set exactly when the list holds a token
    whose rack is that bit: the mask has the bits of the categories named,
    the always-on bit, and no others. *)
Theorem err_setdebugmask_exact_bits (tid : Z) (names : string) (s : state) :
  Forall (fun token => category_rack err_categorylist token 1 <> None)
         (strtok_all "," EmptyString names) ->
  1 <= E_INF ->
  handle_valid s = true ->
  allocations_served 2 s = true ->
  exists s',
    err_setdebugmask tid names s = Returned 0 s' /\
    forall i,
      0 <= i ->
      (Z.testbit (err_debugmask s') i = true <->
       i = 31 \/
       exists token,
         In token (strtok_all "," EmptyString names) /\
         category_rack err_categorylist token 1 = Some (2 ^ i)).
Proof.
  intros Hknown Hlevel Hvalid Halloc.
  destruct (err_setdebugmask_success tid names s Hknown Hlevel Hvalid Halloc)
    as (s' & Hrun & Hmask).
  exists s'. split; [exact Hrun|]. intros i Hi.
  rewrite Hmask, (mask_after_testbit _ _ _ Hknown).
  change 2147483648 with (2 ^ 31). rewrite Z.pow2_bits_eqb by lia.
  rewrite orb_true_iff, existsb_exists, Z.eqb_eq. split.
  - intros [E|(token & Hin & Hbit)]; [left; congruence|].
    destruct (category_rack err_categorylist token 1) as [rack|] eqn:Hrack;
      [|discriminate].
    destruct (category_rack_some _ _ _ _ Hrack) as (j & Hj & ->).
    simpl in Hj. rewrite rack_shifted_power in Hbit, Hrack by lia.
    rewrite Z.pow2_bits_eqb in Hbit by lia. apply Z.eqb_eq in Hbit.
    right. exists token. split; [exact Hin|]. now rewrite Hbit in Hrack.
  - intros [E|(token & Hin & Hrack)]; [left; congruence|].
    right. exists token. split; [exact Hin|]. rewrite Hrack.
    rewrite Z.pow2_bits_eqb by lia. apply Z.eqb_refl.
Qed.

(** X21: for lists in which every token names a category, the mask
    [err_setdebugmask] arrives at depends on which names the list holds,
    not on their order and not on how often a name is repeated. *)
Theorem err_setdebugmask_same_names (tid1 tid2 : Z) (names1 names2 : string)
    (s1 s2 : state) :
  Forall (fun token => category_rack err_categorylist token 1 <> None)
         (strtok_all "," EmptyString names1) ->
  Forall (fun token => category_rack err_categorylist token 1 <> None)
         (strtok_all "," EmptyString names2) ->
  (forall token,
     In token (strtok_all "," EmptyString names1) <->
     In token (strtok_all "," EmptyString names2)) ->
  1 <= E_INF ->
  handle_valid s1 = true -> allocations_served 2 s1 = true ->
  handle_valid s2 = true -> allocations_served 2 s2 = true ->
  exists s1' s2',
    err_setdebugmask tid1 names1 s1 = Returned 0 s1' /\
    err_setdebugmask tid2 names2 s2 = Returned 0 s2' /\
    err_debugmask s1' = err_debugmask s2'.
Proof.
  intros Hknown1 Hknown2 Hsame Hlevel Hvalid1 Halloc1 Hvalid2 Halloc2.
  destruct (err_setdebugmask_success tid1 names1 s1 Hknown1 Hlevel Hvalid1
              Halloc1) as (s1' & Hrun1 & Hmask1).
  destruct (err_setdebugmask_success tid2 names2 s2 Hknown2 Hlevel Hvalid2
              Halloc2) as (s2' & Hrun2 & Hmask2).
  exists s1', s2'. split; [exact Hrun1|]. split; [exact Hrun2|].
  rewrite Hmask1, Hmask2.
  now apply mask_after_same_elements.
Qed.

Lemma err_log_always_on tid level cat expanded :
  ensures (fun s => Z.testbit (err_debugmask s) 31 = true)
          (err_log tid level cat expanded).
Proof.
  intros s Hbit.
  pose proof (err_log_debugmask tid level cat expanded s) as Hkeep.
  destruct (err_log tid level cat expanded s); [| |exact I]; congruence.
Qed.

Lemma err_setdebugmask_loop_always_on (tid : Z) (tokens : list string) :
  ensures (fun s => Z.testbit (err_debugmask s) 31 = true)
          (err_setdebugmask_loop tid tokens).
Proof.
  induction tokens as [|token tokens IH]; intros s Hbit;
    cbn [err_setdebugmask_loop].
  - rewrite bind_eq. unfold gets at 1. rewrite bind_eq. unfold DPRINTF.
    pose proof (err_log_always_on tid E_INF L_MISC
                  ("Debug mask is 0x" +:+ hex8 (err_debugmask s) +:+ LF)
                  s Hbit) as Hlog.
    destruct (err_log _ _ _ _ s); assumption.
  - destruct (category_rack err_categorylist token 1) as [rack|].
    + rewrite bind_eq. unfold modify at 1. apply IH.
      cbn [err_debugmask set_err_debugmask].
      now rewrite Z.lor_spec, Hbit.
    + rewrite bind_eq. unfold DPRINTF.
      pose proof (err_log_always_on tid E_LOG L_MISC
                    ("Unknown module: " +:+ token +:+ LF) s Hbit) as Hlog.
      destruct (err_log _ _ _ _ s); assumption.
Qed.

(** X22: however [err_setdebugmask] ends, and whatever the list was,
    the mask then has bit 31: a message of the category [0x80000000] is
    never held back by the category test. *)
Theorem err_setdebugmask_always_on (tid : Z) (names : string) (s : state) :
  match err_setdebugmask tid names s with
  | Returned _ s' | Exited _ s' =>
      Z.testbit (err_debugmask s') 31 = true /\
      Z.land 0x80000000 (err_debugmask s') <> 0
  | Undefined => True
  end.
Proof.
  assert (Hbit : match err_setdebugmask tid names s with
                 | Returned _ s' | Exited _ s' =>
                     Z.testbit (err_debugmask s') 31 = true
                 | Undefined => True
                 end).
  { unfold err_setdebugmask. rewrite bind_eq. unfold modify at 1.
    cbv beta iota. rewrite bind_eq. unfold malloc at 1. cbv beta iota.
    destruct (hd true _); cbn [negb]; [|reflexivity].
    apply err_setdebugmask_loop_always_on. reflexivity. }
  destruct (err_setdebugmask tid names s) as [r s'|c s'|]; [| |exact I];
    (split; [exact Hbit|]); intros Hzero;
    apply (f_equal (fun m => Z.testbit m 31)) in Hzero;
    rewrite Z.land_spec, Hbit in Hzero; discriminate Hzero.
Qed.

(** X23: when the copy of the list cannot be allocated,
    [err_setdebugmask] returns 0, as it does for a list it has accepted;
    the mask is then the always-on bit alone, and no message is logged. *)
Theorem err_setdebugmask_no_memory (tid : Z) (names : string) (s : state) :
  allocations_served 1 s = false ->
  err_setdebugmask tid names s =
  Returned 0 (set_heap (tl (heap s)) (set_err_debugmask 0x80000000 s)).
Proof.
  rewrite allocations_served_1. intros Hfail.
  unfold err_setdebugmask. rewrite bind_eq. unfold modify at 1.
  cbv beta iota. rewrite bind_eq. unfold malloc at 1.
  cbn [heap set_err_debugmask]. rewrite Hfail. reflexivity.
Qed.

End MaskBits.

Lemma known_sample (tokens : list string) :
  forallb (fun token =>
             match category_rack err_categorylist token 1 with
             | Some _ => true
             | None => false
             end) tokens = true ->
  Forall (fun token => category_rack err_categorylist token 1 <> None) tokens.
Proof.
  induction tokens as [|token tokens IH]; cbn [forallb]; [constructor|].
  intros Hall. apply andb_prop in Hall as [Htoken Hrest].
  constructor; [|exact (IH Hrest)].
  destruct (category_rack err_categorylist token 1); [discriminate|].
  discriminate Htoken.
Qed.

Lemma err_setdebugmask_known_witness :
  exists s',
    @err_setdebugmask sample_h 7 "config,database" boot = Returned 0 s' /\
    err_debugmask s' = 0x80000005.
Proof.
  apply (@err_setdebugmask_known sample_h 7 "config,database" boot).
  - apply known_sample. reflexivity.
  - vm_compute. discriminate.
  - reflexivity.
  - reflexivity.
Defined.

Lemma err_setdebugmask_exact_bits_witness :
  exists s',
    @err_setdebugmask sample_h 7 "config,database" boot = Returned 0 s' /\
    (Z.testbit (err_debugmask s') 2 = true <->
     2 = 31 \/
     exists token,
       In token [ "config"; "database" ]%string /\
       category_rack err_categorylist token 1 = Some 4) /\
    Z.testbit (err_debugmask s') 1 = false.
Proof.
  destruct (@err_setdebugmask_exact_bits sample_h 7 "config,database" boot)
    as (s' & Hrun & Hbits).
  - apply known_sample. reflexivity.
  - vm_compute. discriminate.
  - reflexivity.
  - reflexivity.
  - exists s'. split; [exact Hrun|]. split.
    + apply (Hbits 2). lia.
    + destruct (Z.testbit (err_debugmask s') 1) eqn:Hbit; [|reflexivity].
      destruct (proj1 (Hbits 1 ltac:(lia)) Hbit)
        as [E|(token & Hin & Hrack)]; [discriminate E|].
      destruct Hin as [<-|[<-|[]]]; vm_compute in Hrack; discriminate Hrack.
Defined.

Lemma err_setdebugmask_same_names_witness :
  exists s1' s2',
    @err_setdebugmask sample_h 7 "scan,art,scan" boot = Returned 0 s1' /\
    @err_setdebugmask sample_h 8 "art,,scan" logging = Returned 0 s2' /\
    err_debugmask s1' = err_debugmask s2'.
Proof.
  apply (@err_setdebugmask_same_names sample_h 7 8 "scan,art,scan"
           "art,,scan" boot logging).
  - apply known_sample. reflexivity.
  - apply known_sample. reflexivity.
  - intros token. vm_compute. tauto.
  - vm_compute. discriminate.
  - reflexivity.
  - reflexivity.
  - reflexivity.
  - reflexivity.
Defined.

Lemma err_setdebugmask_no_memory_witness :
  @err_setdebugmask sample_h 7 "bogus" (set_heap [false] boot) =
  Returned 0 (set_err_debugmask 0x80000000 boot).
Proof.
  apply (@err_setdebugmask_no_memory sample_h 7 "bogus"
           (set_heap [false] boot)).
  reflexivity.
Defined.

(** ** How a call of [err_log] ends *)

Section Ends.

Context `{err_h}.

(** X24: with a severity that is not negative and a log handle that is
    [NULL] or open, a call of [err_log] stays within the defined behaviour
    of C; it returns only for a severity other than 0, and it ends the
    process only for severity 0 or for want of memory for the list node,
    with a status that is not 0. *)
Theorem err_log_ends (tid level cat : Z) (expanded : string) (s : state) :
  0 <= level ->
  handle_valid s = true ->
  match err_log tid level cat expanded s with
  | Returned _ _ => level <> 0
  | Exited status _ =>
      (level = 0 \/ allocations_served 1 s = false) /\ status <> 0
  | Undefined => False
  end.
Proof.
  intros Hlevel Hvalid. rewrite allocations_served_1.
  rewrite err_log_eq.
  destruct (err_log_filter level cat s) eqn:Hpass.
  2:{ intros ->. change (err_log_filter 0 cat s) with true in Hpass.
      discriminate Hpass. }
  rewrite err_log_guard_eq. cbv zeta.
  destruct (Z.eqb_spec level 0) as [->|Hne]; cbn [negb].
  - rewrite andb_false_r.
    destruct (hd true (heap s)); [|split; [auto | discriminate]].
    rewrite bind_eq, err_log_syslog_fatal. cbv zeta.
    destruct (thread_check tid (err_threadlist s));
      [split; [auto | discriminate]|].
    set (s2 := set_sys_log _ _).
    destruct (err_log_sinks_returns tid 0 false (vsnprintf_errbuf expanded) s2)
      as (s3 & Hsinks & _); [exact Hvalid|].
    rewrite bind_eq, Hsinks. split; [auto | discriminate].
  - rewrite andb_true_r.
    destruct (thread_check tid (err_threadlist s)); [exact Hne|].
    destruct (hd true (heap s)); [|split; [auto | discriminate]].
    set (s1 := set_err_threadlist _ _). rewrite bind_eq.
    pose proof (err_log_syslog_valid level false (vsnprintf_errbuf expanded)
                  s1) as Hkeep.
    destruct (err_log_syslog_returns level false (vsnprintf_errbuf expanded)
                s1 ltac:(lia)) as [s2 Hsys].
    rewrite Hsys in Hkeep |- *. rewrite bind_eq.
    destruct (err_log_sinks_returns tid level false
                (vsnprintf_errbuf expanded) s2) as (s3 & Hsinks & _).
    { rewrite Hkeep. exact Hvalid. }
    rewrite Hsinks.
    unfold err_log_leave, __err_thread_del, err_log_exit. run_m.
    destruct (Z.eqb_spec level 0); [contradiction | exact Hne].
Qed.

(** The state after an error of severity 1 has been logged. *)
Lemma err_log_error_state (tid cat : Z) (expanded : string) (s : state) :
  ~ In tid (err_threadlist s) ->
  handle_valid s = true ->
  allocations_served 1 s = true ->
  exists s',
    err_log tid 1 cat expanded s = Returned tt s' /\
    sys_log s' =
      sys_log s ++ (if err_syslog_open s =? 0 then [Openlog] else []) ++
      [Syslog (if E_DBG <? 1 then LOG_DEBUG else LOG_ALERT)
              (vsnprintf_errbuf expanded)] /\
    err_syslog_open s' = 1 /\
    err_threadlist s' = err_threadlist s /\
    handle_valid s' = true /\
    heap s' = tl (heap s).
Proof.
  intros Hnotin Hvalid Halloc. rewrite allocations_served_1 in Halloc.
  assert (Hcheck : thread_check tid (err_threadlist s) = false).
  { destruct (thread_check tid (err_threadlist s)) eqn:E; [|reflexivity].
    apply thread_check_In in E. contradiction. }
  rewrite err_log_eq. change (err_log_filter 1 cat s) with true. cbv iota.
  rewrite err_log_guard_eq. cbv zeta.
  rewrite Hcheck, Halloc. cbn [andb]. rewrite bind_eq, err_log_syslog_error.
  set (s2 := set_sys_log _ _).
  assert (Hkeep : preserves heap
            (err_log_sinks tid 1 false (vsnprintf_errbuf expanded))).
  { unfold err_log_sinks, fprintf_stderr. preserve. }
  specialize (Hkeep s2).
  destruct (err_log_sinks_nonfatal tid 1 (vsnprintf_errbuf expanded) s2)
    as (s3 & Hsinks & _ & _ & Hstreams & Hconf & Hlist & Hsys & Hopen);
    [discriminate | exact Hvalid |].
  rewrite Hsinks in Hkeep. rewrite bind_eq, Hsinks.
  injection Hconf as _ _ _ Hfile _ _.
  eexists. split; [reflexivity|].
  cbn [sys_log err_syslog_open err_threadlist heap set_err_threadlist].
  rewrite Hsys, Hopen, Hlist, Hkeep.
  split; [reflexivity|]. split; [reflexivity|].
  split; [subst s2; cbn; now rewrite Z.eqb_refl|].
  split; [|reflexivity].
  unfold handle_valid. cbn [err_file fs_streams set_err_threadlist].
  rewrite Hfile, Hstreams. exact Hvalid.
Qed.

(** X25: the syslog channel is opened with the first message of severity
    1 and not again: of two errors logged one after the other, both reach
    syslog, in their order, and an [openlog] precedes them only when none
    was on record before the first. *)
Theorem err_log_openlog_once (tid1 tid2 cat1 cat2 : Z)
    (expanded1 expanded2 : string) (s : state) :
  ~ In tid1 (err_threadlist s) ->
  ~ In tid2 (err_threadlist s) ->
  handle_valid s = true ->
  allocations_served 2 s = true ->
  exists s',
    (err_log tid1 1 cat1 expanded1 >> err_log tid2 1 cat2 expanded2) s =
      Returned tt s' /\
    sys_log s' =
      sys_log s ++ (if err_syslog_open s =? 0 then [Openlog] else []) ++
      [Syslog (if E_DBG <? 1 then LOG_DEBUG else LOG_ALERT)
              (vsnprintf_errbuf expanded1);
       Syslog (if E_DBG <? 1 then LOG_DEBUG else LOG_ALERT)
              (vsnprintf_errbuf expanded2)].
Proof.
  intros Hnotin1 Hnotin2 Hvalid Halloc.
  assert (Hfirst : allocations_served 1 s = true /\
                   forallb (fun b => b) (firstn 1 (tl (heap s))) = true).
  { revert Halloc. unfold allocations_served.
    destruct (heap s) as [|[] [|[] more]]; cbn; auto. }
  destruct Hfirst as [Halloc1 Halloc2].
  destruct (err_log_error_state tid1 cat1 expanded1 s Hnotin1 Hvalid Halloc1)
    as (s1 & Hrun1 & Hsys1 & Hopen1 & Hlist1 & Hvalid1 & Hheap1).
  destruct (err_log_error_state tid2 cat2 expanded2 s1)
    as (s2 & Hrun2 & Hsys2 & _).
  - now rewrite Hlist1.
  - exact Hvalid1.
  - unfold allocations_served. now rewrite Hheap1.
  - rewrite bind_eq, Hrun1, Hrun2. exists s2. split; [reflexivity|].
    rewrite Hsys2, Hsys1, Hopen1. change (1 =? 0) with false.
    rewrite <- !app_assoc. reflexivity.
Qed.

End Ends.

Lemma err_log_ends_witness :
  (exists s', @err_log sample_h 7 1 0 "cannot bind" boot = Returned tt s') /\
  (exists s', @err_log sample_h 7 0 0 "no database" boot = Exited 1 s').
Proof.
  split.
  - pose proof (@err_log_ends sample_h 7 1 0 "cannot bind" boot
                  ltac:(lia) eq_refl) as Hend.
    destruct (@err_log sample_h 7 1 0 "cannot bind" boot)
      as [[] s'|c s'|] eqn:Hrun; [eauto| |destruct Hend].
    destruct Hend as [[E|E] _]; discriminate E.
  - pose proof (@err_log_ends sample_h 7 0 0 "no database" boot
                  ltac:(lia) eq_refl) as Hend.
    destruct (@err_log sample_h 7 0 0 "no database" boot)
      as [[] s'|c s'|] eqn:Hrun; [now contradiction Hend| |destruct Hend].
    vm_compute in Hrun. injection Hrun as <- <-. eauto.
Defined.

Lemma err_log_openlog_once_witness :
  exists s',
    (@err_log sample_h 7 1 0 "cannot bind" >>
     @err_log sample_h 8 1 0 "cannot listen") boot = Returned tt s' /\
    sys_log s' =
      [Openlog; Syslog LOG_ALERT "cannot bind";
       Syslog LOG_ALERT "cannot listen"].
Proof.
  apply (@err_log_openlog_once sample_h 7 8 0 0 "cannot bind"
           "cannot listen" boot).
  - intros [].
  - intros [].
  - reflexivity.
  - reflexivity.
Defined.

(** * The filter and the fatal message, seen from the caller *)

Section Caller.

Context `{err_h}.

(** [err_log] is its test, then the rest. *)
Lemma err_log_accepted_eq (tid level cat : Z) (expanded : string)
    (s : state) :
  err_log tid level cat expanded s =
  if err_log_filter level cat s then err_log_accepted tid level expanded s
  else Returned tt s.
Proof.
  unfold err_log. rewrite bind_eq. unfold gets at 1.
  destruct (err_log_filter level cat s); reflexivity.
Qed.

(** What goes to standard error when [err_log_sinks] can do its work: the
    file is no destination, or the log handle is [NULL] or open. *)
Lemma err_log_sinks_console (tid level : Z) (errbuf : string) (s : state) :
  Z.land (err_logdest s) LOGDEST_LOGFILE = 0 \/ handle_valid s = true ->
  exists s1,
    err_log_sinks tid level false errbuf s = Returned tt s1 /\
    std_err s1 =
      std_err s ++
      (if negb (Z.land (err_logdest s) LOGDEST_STDERR =? 0) || (level =? 0)
       then errbuf :: (if level =? 0 then ["Aborting" +:+ LF] else [])
       else []) /\
    err_threadlist s1 = err_threadlist s.
Proof.
  intros [Hoff|Hvalid].
  - unfold err_log_sinks, fprintf_stderr. run_m. rewrite Hoff.
    change (0 =? 0) with true. cbn [negb andb]. cbv beta iota.
    destruct (level =? 0);
      destruct (negb (Z.land (err_logdest s) LOGDEST_STDERR =? 0));
      cbn [orb]; cbv beta iota; eexists; (split; [reflexivity|]); simpl;
      rewrite <- ?app_assoc, ?app_nil_r; split; reflexivity.
  - destruct (err_log_sinks_returns tid level false errbuf s Hvalid)
      as (s1 & Hrun & Herr & Hlist & _).
    eauto.
Qed.

(** A message that has passed the test, from a thread that is not on the
    thread list and gets its list node. *)
Lemma err_log_console (tid level cat : Z) (expanded : string) (s : state) :
  err_log_filter level cat s = true ->
  0 <= level ->
  ~ In tid (err_threadlist s) ->
  Z.land (err_logdest s) LOGDEST_LOGFILE = 0 \/ handle_valid s = true ->
  allocations_served 1 s = true ->
  exists s',
    err_log tid level cat expanded s =
      (if level =? 0 then Exited EXIT_FAILURE s' else Returned tt s') /\
    std_err s' =
      std_err s ++
      (if negb (Z.land (err_logdest s) LOGDEST_STDERR =? 0) || (level =? 0)
       then vsnprintf_errbuf expanded ::
            (if level =? 0 then ["Aborting" +:+ LF] else [])
       else []) /\
    err_threadlist s' = err_threadlist s.
Proof.
  intros Hpass Hlevel Hnotin Husable Halloc.
  rewrite allocations_served_1 in Halloc.
  assert (Hcheck : thread_check tid (err_threadlist s) = false).
  { destruct (thread_check tid (err_threadlist s)) eqn:E; [|reflexivity].
    apply thread_check_In in E. contradiction. }
  rewrite err_log_eq, Hpass, err_log_guard_eq. cbv zeta.
  rewrite Hcheck, Halloc. cbn [andb]. rewrite bind_eq.
  set (s1 := set_err_threadlist _ _).
  assert (Hkeep : preserves
            (fun s => (std_err s, err_logdest s, err_file s, fs_streams s,
                       err_threadlist s))
            (err_log_syslog level false (vsnprintf_errbuf expanded))).
  { unfold err_log_syslog, lvl2syslog_at, openlog, syslog, fprintf_stderr.
    cbn [andb]. preserve. }
  specialize (Hkeep s1).
  pose proof (err_log_syslog_defined level false (vsnprintf_errbuf expanded)
                s1 Hlevel) as Hdefined.
  pose proof (err_log_syslog_no_exit level (vsnprintf_errbuf expanded) s1)
    as Hnoexit.
  destruct (err_log_syslog level false (vsnprintf_errbuf expanded) s1)
    as [[] s2|c s2|]; [|exfalso; exact (Hnoexit c s2 eq_refl)|contradiction].
  injection Hkeep as Herr Hdest Hfile Hstreams Hlist.
  destruct (err_log_sinks_console tid level (vsnprintf_errbuf expanded) s2)
    as (s3 & Hsinks & Herr3 & Hlist3).
  { rewrite Hdest. destruct Husable as [Hoff|Hvalid]; [left; exact Hoff|].
    right. unfold handle_valid. rewrite Hfile, Hstreams. exact Hvalid. }
  rewrite bind_eq, Hsinks.
  unfold err_log_leave, __err_thread_del, err_log_exit, exit. run_m.
  eexists. split.
  - destruct (level =? 0); reflexivity.
  - cbn [std_err err_threadlist set_err_threadlist].
    rewrite Herr3, Herr, Hdest, Hlist3, Hlist.
    split; [reflexivity|]. subst s1.
    cbn [err_threadlist set_err_threadlist set_heap]. apply thread_del_head.
Qed.


(** C4: severities 0 and 1 pass the test at the head of [err_log] whatever
    the debug level and the category mask are; a severity of 2 or more
    passes exactly when it does not exceed the debug level and the
    message's categories meet the category mask.  A message that does not
    pass makes [err_log] return at once, with nothing changed; a message
    that passes is taken through the rest of [err_log], and where that
    rest can be watched (the thread not on the thread list, its list
    node allocated, the log file no destination or its handle [NULL] or
    open) the message is on standard error whenever the console is among
    the destinations or the severity is 0. *)
Theorem err_log_filter_accepts (tid level cat : Z) (expanded : string)
    (s : state) :
  (level = 0 \/ level = 1 -> err_log_filter level cat s = true) /\
  (2 <= level ->
     (err_log_filter level cat s = true <->
      level <= err_debuglevel s /\ Z.land cat (err_debugmask s) <> 0)) /\
  (err_log_filter level cat s = false ->
     err_log tid level cat expanded s = Returned tt s) /\
  (err_log_filter level cat s = true ->
     err_log tid level cat expanded s =
     err_log_accepted tid level expanded s) /\
  (err_log_filter level cat s = true ->
   0 <= level ->
   ~ In tid (err_threadlist s) ->
   Z.land (err_logdest s) LOGDEST_LOGFILE = 0 \/ handle_valid s = true ->
   allocations_served 1 s = true ->
   exists s',
     err_log tid level cat expanded s =
       (if level =? 0 then Exited EXIT_FAILURE s' else Returned tt s') /\
     std_err s' =
       std_err s ++
       (if negb (Z.land (err_logdest s) LOGDEST_STDERR =? 0) || (level =? 0)
        then vsnprintf_errbuf expanded ::
             (if level =? 0 then ["Aborting" +:+ LF] else [])
        else [])).
Proof.
  split; [|split; [|split; [|split]]].
  - unfold err_log_filter. intros [-> | ->]; reflexivity.
  - intros Hlevel. unfold err_log_filter.
    destruct (Z.ltb_spec 1 level); [|lia].
    destruct (Z.ltb_spec (err_debuglevel s) level).
    { split; [discriminate | lia]. }
    destruct (Z.eqb_spec (Z.land cat (err_debugmask s)) 0).
    + split; [discriminate | tauto].
    + split; [split; [lia | assumption] | reflexivity].
  - intros Hreject. now rewrite err_log_accepted_eq, Hreject.
  - intros Hpass. now rewrite err_log_accepted_eq, Hpass.
  - intros Hpass Hlevel Hnotin Husable Halloc.
    destruct (err_log_console tid level cat expanded s Hpass Hlevel Hnotin
                Husable Halloc) as (s' & Hrun & Herr & _).
    exists s'. split; [exact Hrun | exact Herr].
Qed.


End Caller.

Lemma err_log_filter_accepts_witness :
  err_log_filter 1 0 (set_err_debugmask 0 boot) = true /\
  (err_log_filter 3 2 (set_err_debuglevel 5 boot) = true <->
   3 <= 5 /\ Z.land 2 0xFFFFFFFF <> 0) /\
  @err_log sample_h 7 3 2 "spam" boot = Returned tt boot /\
  @err_log sample_h 7 3 2 "scanning" (set_err_debuglevel 5 boot) =
    @err_log_accepted sample_h 7 3 "scanning" (set_err_debuglevel 5 boot) /\
  exists s',
    @err_log sample_h 7 3 2 "scanning"
      (set_err_logdest 1 (set_err_debuglevel 5 boot)) = Returned tt s' /\
    std_err s' = ["scanning"].
Proof.
  split; [|split; [|split; [|split]]].
  - apply (proj1 (@err_log_filter_accepts sample_h 7 1 0 EmptyString _)).
    right. reflexivity.
  - apply (proj1 (proj2 (@err_log_filter_accepts sample_h 7 3 2 EmptyString
                           (set_err_debuglevel 5 boot)))).
    lia.
  - apply (proj1 (proj2 (proj2 (@err_log_filter_accepts sample_h 7 3 2 _ _)))).
    reflexivity.
  - apply (proj1 (proj2 (proj2 (proj2
             (@err_log_filter_accepts sample_h 7 3 2 _ _))))).
    reflexivity.
  - apply (proj2 (proj2 (proj2 (proj2
             (@err_log_filter_accepts sample_h 7 3 2 "scanning"
                (set_err_logdest 1 (set_err_debuglevel 5 boot))))))).
    + reflexivity.
    + lia.
    + intros [].
    + left. reflexivity.
    + reflexivity.
Defined.



(** * The unknown name, the stale handle, and two operations in full *)

Section Revisited.

Context `{err_h}.

(** C5, as the code has it: given a list in which the first token that
    names no category comes after the tokens [known], and a copy of the
    list being allocated, [err_setdebugmask] drops the mask that was
    active before the call and leaves the always-on bit together with
    the bits of [known]; with that mask in place it hands the line
    "Unknown module: " and the token to [err_log] at severity [E_LOG],
    and returns 1 when [err_log] returns.  It does return 1 when [E_LOG]
    is not fatal, the log handle is [NULL] or open and a list node can be
    had; and with [E_LOG] at 1 and the calling thread not on the thread
    list the line is then in syslog. *)
Theorem err_setdebugmask_unknown (tid : Z) (names : string)
    (known : list string) (bad : string) (rest : list string) (s : state) :
  strtok_all "," EmptyString names = known ++ bad :: rest ->
  Forall (fun token => category_rack err_categorylist token 1 <> None) known ->
  category_rack err_categorylist bad 1 = None ->
  allocations_served 1 s = true ->
  err_setdebugmask tid names s =
    (DPRINTF tid E_LOG L_MISC ("Unknown module: " +:+ bad +:+ LF) >> ret 1)
      (set_err_debugmask (mask_after known 0x80000000)
         (set_heap (tl (heap s)) s)) /\
  match err_setdebugmask tid names s with
  | Returned r s' =>
      r = 1 /\ err_debugmask s' = mask_after known 0x80000000
  | Exited _ s' => err_debugmask s' = mask_after known 0x80000000
  | Undefined => True
  end /\
  (1 <= E_LOG ->
   handle_valid s = true ->
   allocations_served 2 s = true ->
   exists s',
     err_setdebugmask tid names s = Returned 1 s' /\
     err_debugmask s' = mask_after known 0x80000000) /\
  (E_LOG = 1 ->
   ~ In tid (err_threadlist s) ->
   handle_valid s = true ->
   allocations_served 2 s = true ->
   exists s',
     err_setdebugmask tid names s = Returned 1 s' /\
     sys_log s' =
       sys_log s ++ (if err_syslog_open s =? 0 then [Openlog] else []) ++
       [Syslog (if E_DBG <? 1 then LOG_DEBUG else LOG_ALERT)
               (vsnprintf_errbuf ("Unknown module: " +:+ bad +:+ LF))]).
Proof.
  intros Htokens Hknown Hbad Hstrdup.
  rewrite allocations_served_1 in Hstrdup.
  set (s1 := set_err_debugmask (mask_after known 0x80000000)
               (set_heap (tl (heap s)) s)).
  set (text := "Unknown module: " +:+ bad +:+ LF).
  assert (Hrun : err_setdebugmask tid names s =
                 (DPRINTF tid E_LOG L_MISC text >> ret 1) s1).
  { unfold err_setdebugmask. rewrite bind_eq. unfold modify at 1.
    cbv beta iota. rewrite bind_eq. unfold malloc at 1.
    cbn [heap set_err_debugmask]. rewrite Hstrdup. cbn [negb].
    rewrite Htokens.
    change (set_heap (tl (heap s)) (set_err_debugmask 2147483648 s))
      with (set_err_debugmask 2147483648 (set_heap (tl (heap s)) s)).
    rewrite (err_setdebugmask_loop_known tid known (bad :: rest) Hknown).
    cbn [err_setdebugmask_loop]. rewrite Hbad. reflexivity. }
  assert (Hnode : allocations_served 2 s = true ->
                  allocations_served 1 s1 = true).
  { unfold allocations_served. subst s1. cbn [heap set_err_debugmask set_heap].
    destruct (heap s) as [|[] [|[] more]]; cbn; auto. }
  pose proof (err_log_debugmask tid E_LOG L_MISC text s1) as Hmask.
  split; [exact Hrun|]. rewrite Hrun, bind_eq. unfold DPRINTF.
  split; [|split].
  - destruct (err_log tid E_LOG L_MISC text s1) as [[] s2|c s2|];
      [split; [reflexivity | exact Hmask] | exact Hmask | exact I].
  - intros Hlevel Hvalid Halloc.
    destruct (err_log_returns tid E_LOG L_MISC text s1 Hlevel Hvalid
                (Hnode Halloc)) as [s2 Hlog].
    rewrite Hlog in Hmask |- *. exists s2. split; [reflexivity | exact Hmask].
  - intros Herror Hnotin Hvalid Halloc. rewrite Herror.
    destruct (err_log_error_state tid L_MISC text s1 Hnotin Hvalid
                (Hnode Halloc)) as (s2 & Hlog & Hsys & _).
    rewrite Hlog. exists s2. split; [reflexivity | exact Hsys].
Qed.

Lemma set_err_logdest_same (s : state) : set_err_logdest (err_logdest s) s = s.
Proof. destruct s. reflexivity. Qed.

(** X5: [__err_thread_del] changes the thread list and nothing else, and
    of the list it unlinks one node of the calling thread and no more:
    the id of the thread is on the list once less often, or as absent as
    it was, in which case the list is the same; the nodes of the other
    threads stay, in their order. *)
Theorem err_thread_del_one_node (tid : Z) (s : state) :
  exists l,
    __err_thread_del tid s = Returned tt (set_err_threadlist l s) /\
    (forall id,
       occurrences id l =
       if tid =? id then Nat.pred (occurrences id (err_threadlist s))
       else occurrences id (err_threadlist s)) /\
    List.filter (fun x => negb (x =? tid)) l =
      List.filter (fun x => negb (x =? tid)) (err_threadlist s) /\
    (~ In tid (err_threadlist s) -> l = err_threadlist s).
Proof.
  exists (thread_del tid (err_threadlist s)). split; [reflexivity|].
  split; [intros id; apply occurrences_thread_del|].
  split; [apply thread_del_others | apply thread_del_absent].
Qed.

(** X13: as long as it does not take the file destination away,
    [err_setdest] changes the destinations and nothing else: the state it
    returns differs from the one it was called in by [err_logdest] alone,
    which is what [err_getdest] then returns.  No stream is opened or
    closed, so that making the file a destination opens no log file. *)
Theorem err_setdest_getdest (destination : Z) (s : state) :
  Z.land (err_logdest s) LOGDEST_LOGFILE = 0 \/
  Z.land destination LOGDEST_LOGFILE <> 0 ->
  err_setdest destination s =
    Returned tt (set_err_logdest destination s) /\
  (err_setdest destination >> err_getdest) s =
    Returned destination (set_err_logdest destination s).
Proof.
  intros Hcase.
  assert (Hset : err_setdest destination s =
                 Returned tt (set_err_logdest destination s)).
  { unfold err_setdest. run_m.
    destruct (Z.eqb_spec (err_logdest s) destination) as [E|_].
    - rewrite <- E. now rewrite set_err_logdest_same.
    - assert (Hkeep :
        negb (Z.land (err_logdest s) LOGDEST_LOGFILE =? 0) &&
          (Z.land destination LOGDEST_LOGFILE =? 0) = false).
      { destruct Hcase as [-> | Hstay]; [reflexivity|].
        destruct (Z.eqb_spec (Z.land destination LOGDEST_LOGFILE) 0);
          [contradiction | apply andb_false_r]. }
      rewrite Hkeep. reflexivity. }
  split; [exact Hset|]. rewrite bind_eq, Hset. reflexivity.
Qed.

(** [err_settruncate] asked for the value the flag has. *)
Lemma err_settruncate_same (s : state) :
  err_settruncate (err_truncate s) s = Returned TRUE s.
Proof. unfold err_settruncate. run_m. now rewrite Z.eqb_refl. Qed.

(** [err_settruncate] on a handle that [err_setdest] has closed: the
    stream goes to [fclose] a second time. *)
Lemma err_settruncate_closed_stream (truncate : Z) (s : state) (f : FILE) :
  truncate <> err_truncate s ->
  truncate <> 0 ->
  err_file s = Some f ->
  fs_streams s !! f = None ->
  err_settruncate truncate s = Undefined.
Proof.
  intros Hnew Hset Hfile Hclosed. unfold err_settruncate. run_m.
  destruct (Z.eqb_spec (err_truncate s) truncate); [congruence|].
  destruct (Z.eqb_spec truncate 0); [contradiction|].
  cbn [err_file set_err_truncate]. rewrite Hfile.
  rewrite bool_decide_eq_true_2 by discriminate. cbn [negb andb].
  unfold malloc. cbv beta iota. unfold err_setlogfile. run_m.
  cbn [err_file set_heap set_err_truncate]. rewrite Hfile.
  rewrite bool_decide_eq_true_2 by discriminate.
  unfold fclose. cbn [fs_streams set_heap set_err_truncate].
  rewrite Hclosed. reflexivity.
Qed.

End Revisited.

Lemma err_setdebugmask_unknown_witness :
  exists s',
    @err_setdebugmask sample_h 7 "Database,scan,bogus,art" boot =
      Returned 1 s' /\
    err_debugmask s' = 0x8000000C /\
    sys_log s' =
      [Openlog; Syslog LOG_ALERT ("Unknown module: bogus" +:+ LF)].
Proof.
  destruct (@err_setdebugmask_unknown sample_h 7 "Database,scan,bogus,art"
              ["Database"; "scan"]%string "bogus" ["art"]%string boot)
    as (_ & Hends & _ & Hlogged).
  - reflexivity.
  - repeat constructor; discriminate.
  - reflexivity.
  - reflexivity.
  - destruct Hlogged as (s' & Hrun & Hsys);
      [reflexivity | intros [] | reflexivity | reflexivity |].
    rewrite Hrun in Hends. destruct Hends as [_ Hmask].
    exists s'. split; [exact Hrun|]. split; [exact Hmask | exact Hsys].
Defined.

Lemma err_thread_del_one_node_witness :
  exists l,
    @__err_thread_del 9 (set_err_threadlist [7; 9; 8; 9] boot) =
      Returned tt (set_err_threadlist l boot) /\
    l = [7; 8; 9].
Proof.
  destruct (err_thread_del_one_node 9 (set_err_threadlist [7; 9; 8; 9] boot))
    as (l & Hrun & _).
  exists l. split; [exact Hrun|].
  vm_compute in Hrun. injection Hrun as <-. reflexivity.
Defined.

Lemma err_setdest_getdest_witness :
  @err_setdest sample_h 4 boot = Returned tt (set_err_logdest 4 boot) /\
  (@err_setdest sample_h 4 >> err_getdest) boot =
    Returned 4 (set_err_logdest 4 boot).
Proof.
  apply (@err_setdest_getdest sample_h 4 boot). left. reflexivity.
Defined.

(** C10 at work: once [err_setdest] has taken the file destination away,
    the log handle names a closed stream, and [err_settruncate] with a new
    value other than 0 does not return [TRUE]: it closes that stream
    again. *)
Theorem err_settruncate_stale_handle :
  exists s',
    (let* opened := @err_setlogfile sample_h log_path in
     @err_setdest sample_h 4 >> @err_setdest sample_h 0) before_logging =
      Returned tt s' /\
    err_truncate s' = 0 /\
    err_file s' = Some O /\
    fs_streams s' !! O = None /\
    @err_settruncate sample_h 1 s' = Undefined.
Proof.
  eexists. split; [vm_compute; reflexivity|]. repeat split.
Qed.
